(** * PersonaPlex voice chat client (client.py): a shallow embedding

    The client bridges a microphone and a loudspeaker to a websocket:
    a capture callback fills [mic_queue], the sender cuts the captured
    samples into frames of [FRAME_SIZE] samples, the receiver feeds the
    decoded audio to [speaker_buffer], which the playback callback
    empties, and a command monitor reads [restart] and [quit] from
    stdin.

    Python values are modelled as follows.
    - [len] of a sequence is an integer ([Z]).
    - An audio sample (a float32 in the source) is an exact rational:
      the rounding of float arithmetic is not modelled.  Samples are
      only moved around, except in [volume].
    - [bytes] is [list byte]; [str] is the list of its code points.
    - A raised exception is the left injection of the result of a
      computation in the monad [M], which threads the module globals,
      the connection, the locals of a session and the console. *)

From Stdlib Require Import String Ascii Strings.Byte.
From Stdlib Require Import List ZArith NArith QArith Qabs Lia Bool.
Import ListNotations.

Local Open Scope Z_scope.

(** ** Python sequences *)

Definition len {A : Type} (l : list A) : Z := Z.of_nat (length l).

(** [l[:n]] and [l[n:]] for [0 <= n]. *)
Definition slice_to {A : Type} (n : Z) (l : list A) : list A := firstn (Z.to_nat n) l.
Definition slice_from {A : Type} (n : Z) (l : list A) : list A := skipn (Z.to_nat n) l.

(** The last [n] elements of a list (all of it when it is shorter). *)
Definition lastn {A : Type} (n : Z) (l : list A) : list A := slice_from (len l - n) l.

Definition sample : Type := Q.
Definition silence : sample := 0%Q.

(** A str is the list of its Unicode code points. *)
Definition pystr : Type := list N.

Definition str (s : string) : pystr := map N_of_ascii (list_ascii_of_string s).

(** ** Constants of the module *)

Definition SAMPLE_RATE : Z := 24000.
Definition FRAME_SIZE : Z := 480.
Definition CHANNELS : Z := 1.
Definition MAX_QUEUE_SIZE : Z := 10.
(** [speaker_buffer = deque(maxlen=100000)] *)
Definition SPEAKER_MAXLEN : Z := 100000.

(** ** Exceptions, messages and console output *)

Inductive exn : Type :=
| QueueFull
| QueueEmpty
| NameError (name : string)
| UnicodeDecodeError
| ConnectionClosed.

(** A websocket message is a [bytes] (binary frame) or a [str] (text frame). *)
Inductive ws_message : Type :=
| Bytes (data : list byte)
| Str (text : pystr).

(** What [await ws.recv()] does: it returns a message or raises. *)
Inductive recv_result : Type :=
| Received (msg : ws_message)
| RecvRaised (e : exn).

(** What the [async for message in ws] loop of the receiver sees. *)
Inductive ws_event : Type :=
| Message (message : ws_message)
| ConnectionError.

(** What the command monitor's [wait_for(reader.readline(), 0.5)] yields. *)
Inductive stdin_event : Type :=
| Line (line : list byte)
| Timeout.

(** The [print] calls of the session, one constructor per call site. *)
Inductive output : Type :=
| OutSendingConfig
| OutWaitingForHandshake
| OutHandshakeReceived
| OutUnexpectedFirstByte (b : byte)
| OutSendError (e : exn)
| OutRestartHandshake
| OutLine (text : pystr)
| OutAISpeaker (leading_newline : bool)
| OutText (text : pystr)
| OutReceiveError (e : exn)
| OutRestartRequested
| OutQuitRequested
| OutUnknownCommand (command : pystr)
| OutInputError (e : exn).

(** The value of the global [current_speaker]: [None] or a str. *)
Inductive pyval : Type :=
| PyNone
| PyStr (s : pystr).

(** A global name is bound to a value or not bound at all: reading an
    unbound name raises [NameError]. *)
Inductive binding (A : Type) : Type :=
| Unbound
| Bound (v : A).
Arguments Unbound {A}.
Arguments Bound {A} v.

(** sounddevice's [CallbackFlags]. *)
Record CallbackFlags : Type := {
  input_underflow : bool;
  input_overflow : bool;
  output_underflow : bool;
  output_overflow : bool;
  priming_output : bool
}.

(** [bool(status)]: some flag is set. *)
Definition flags_set (status : CallbackFlags) : bool :=
  input_underflow status || input_overflow status || output_underflow status
  || output_overflow status || priming_output status.

Definition no_flags : CallbackFlags :=
  {| input_underflow := false; input_overflow := false; output_underflow := false;
     output_overflow := false; priming_output := false |}.

(** A two-dimensional array of shape [(frames, channels)], row by row. *)
Record ndarray : Type := {
  shape1 : Z;
  rows : list (list sample)
}.

(** [indata[:, 0]] *)
Definition column0 (a : ndarray) : list sample := map (fun r => nth 0 r silence) (rows a).
(** [indata.flatten()] *)
Definition flatten (a : ndarray) : list sample := concat (rows a).

(** [indata[:, 0] if indata.shape[1] > 1 else indata.flatten()] *)
Definition mono_of (indata : ndarray) : list sample :=
  if 1 <? shape1 indata then column0 indata else flatten indata.

(** A mono block: one row per sample. *)
Definition mono_block (samples : list sample) : ndarray :=
  {| shape1 := CHANNELS; rows := map (fun x => [x]) samples |}.

(** ** The state *)

(** [stats = {"mic_overflows": 0, "speaker_underruns": 0, "queue_size": 0}] *)
Record stats_t : Type := {
  mic_overflows : Z;
  speaker_underruns : Z;
  queue_size : Z
}.

Record client : Type := {
  (* module globals *)
  mic_queue : list (list sample);
  speaker_buffer : list sample;
  stats : stats_t;
  restart_requested : bool;
  current_line_buffer : list pystr;
  current_speaker : binding pyval;
  (* the websocket *)
  ws_open : bool;
  ws_sent : list ws_message;
  (* locals of one session and of its sender *)
  opus_writer : list (list sample);
  opus_reader : list (list byte);
  accumulated : list sample;
  frame_count : Z;
  (* the console *)
  stdout : list output
}.

Definition set_mic_queue (v : list (list sample)) (s : client) : client :=
  Build_client v (speaker_buffer s) (stats s) (restart_requested s) (current_line_buffer s)
    (current_speaker s) (ws_open s) (ws_sent s) (opus_writer s) (opus_reader s)
    (accumulated s) (frame_count s) (stdout s).
Definition set_speaker_buffer (v : list sample) (s : client) : client :=
  Build_client (mic_queue s) v (stats s) (restart_requested s) (current_line_buffer s)
    (current_speaker s) (ws_open s) (ws_sent s) (opus_writer s) (opus_reader s)
    (accumulated s) (frame_count s) (stdout s).
Definition set_stats (v : stats_t) (s : client) : client :=
  Build_client (mic_queue s) (speaker_buffer s) v (restart_requested s) (current_line_buffer s)
    (current_speaker s) (ws_open s) (ws_sent s) (opus_writer s) (opus_reader s)
    (accumulated s) (frame_count s) (stdout s).
Definition set_restart_requested (v : bool) (s : client) : client :=
  Build_client (mic_queue s) (speaker_buffer s) (stats s) v (current_line_buffer s)
    (current_speaker s) (ws_open s) (ws_sent s) (opus_writer s) (opus_reader s)
    (accumulated s) (frame_count s) (stdout s).
Definition set_current_line_buffer (v : list pystr) (s : client) : client :=
  Build_client (mic_queue s) (speaker_buffer s) (stats s) (restart_requested s) v
    (current_speaker s) (ws_open s) (ws_sent s) (opus_writer s) (opus_reader s)
    (accumulated s) (frame_count s) (stdout s).
Definition set_current_speaker (v : binding pyval) (s : client) : client :=
  Build_client (mic_queue s) (speaker_buffer s) (stats s) (restart_requested s)
    (current_line_buffer s) v (ws_open s) (ws_sent s) (opus_writer s) (opus_reader s)
    (accumulated s) (frame_count s) (stdout s).
Definition set_ws_sent (v : list ws_message) (s : client) : client :=
  Build_client (mic_queue s) (speaker_buffer s) (stats s) (restart_requested s)
    (current_line_buffer s) (current_speaker s) (ws_open s) v (opus_writer s) (opus_reader s)
    (accumulated s) (frame_count s) (stdout s).
Definition set_opus_writer (v : list (list sample)) (s : client) : client :=
  Build_client (mic_queue s) (speaker_buffer s) (stats s) (restart_requested s)
    (current_line_buffer s) (current_speaker s) (ws_open s) (ws_sent s) v (opus_reader s)
    (accumulated s) (frame_count s) (stdout s).
Definition set_opus_reader (v : list (list byte)) (s : client) : client :=
  Build_client (mic_queue s) (speaker_buffer s) (stats s) (restart_requested s)
    (current_line_buffer s) (current_speaker s) (ws_open s) (ws_sent s) (opus_writer s) v
    (accumulated s) (frame_count s) (stdout s).
Definition set_accumulated (v : list sample) (s : client) : client :=
  Build_client (mic_queue s) (speaker_buffer s) (stats s) (restart_requested s)
    (current_line_buffer s) (current_speaker s) (ws_open s) (ws_sent s) (opus_writer s)
    (opus_reader s) v (frame_count s) (stdout s).
Definition set_frame_count (v : Z) (s : client) : client :=
  Build_client (mic_queue s) (speaker_buffer s) (stats s) (restart_requested s)
    (current_line_buffer s) (current_speaker s) (ws_open s) (ws_sent s) (opus_writer s)
    (opus_reader s) (accumulated s) v (stdout s).
Definition set_stdout (v : list output) (s : client) : client :=
  Build_client (mic_queue s) (speaker_buffer s) (stats s) (restart_requested s)
    (current_line_buffer s) (current_speaker s) (ws_open s) (ws_sent s) (opus_writer s)
    (opus_reader s) (accumulated s) (frame_count s) v.

(** [stats["mic_overflows"] += 1] and [stats["speaker_underruns"] += 1] *)
Definition bump_mic_overflows (s : client) : client :=
  set_stats {| mic_overflows := mic_overflows (stats s) + 1;
               speaker_underruns := speaker_underruns (stats s);
               queue_size := queue_size (stats s) |} s.
Definition bump_speaker_underruns (s : client) : client :=
  set_stats {| mic_overflows := mic_overflows (stats s);
               speaker_underruns := speaker_underruns (stats s) + 1;
               queue_size := queue_size (stats s) |} s.
(** [stats["queue_size"] = v] *)
Definition set_queue_size (v : Z) (s : client) : client :=
  set_stats {| mic_overflows := mic_overflows (stats s);
               speaker_underruns := speaker_underruns (stats s);
               queue_size := v |} s.

(** The state when the module has been loaded and the websocket is
    connected.  The module assigns [mic_queue], [speaker_buffer],
    [stats], [restart_requested] and [current_line_buffer]; it never
    assigns [current_speaker], which the receiver declares [global]. *)
Definition module_loaded : client :=
  {| mic_queue := []; speaker_buffer := [];
     stats := {| mic_overflows := 0; speaker_underruns := 0; queue_size := 0 |};
     restart_requested := false; current_line_buffer := [];
     current_speaker := Unbound;
     ws_open := true; ws_sent := [];
     opus_writer := []; opus_reader := []; accumulated := []; frame_count := 0;
     stdout := [] |}.

(** ** queue.Queue and collections.deque *)

Module PyQueue.
(** [Queue.put_nowait]: raises [Full] when [maxsize > 0] and the
    queue holds [maxsize] items.  The head of the list is the oldest. *)
Definition put_nowait {A : Type} (maxsize : Z) (item : A) (q : list A) : exn + list A :=
  if (0 <? maxsize) && (maxsize <=? len q) then inl QueueFull else inr (q ++ [item]).

(** [Queue.get_nowait]: raises [Empty] on an empty queue. *)
Definition get_nowait {A : Type} (q : list A) : exn + (A * list A) :=
  match q with
  | [] => inl QueueEmpty
  | item :: q' => inr (item, q')
  end.
End PyQueue.

Module PyDeque.
(** [deque.append] with a [maxlen]: the item is added on the right
    and, when the deque then holds more than [maxlen] items, the
    leftmost is dropped. *)
Definition append {A : Type} (maxlen : Z) (x : A) (d : list A) : list A :=
  let d' := d ++ [x] in
  if maxlen <? len d' then tl d' else d'.

(** [deque.extend]: the items are appended one by one. *)
Definition extend {A : Type} (maxlen : Z) (xs : list A) (d : list A) : list A :=
  fold_left (fun d x => append maxlen x d) xs d.

(** [n] times [popleft], collecting the values (the deque must hold
    [n] items). *)
Fixpoint popleft_n {A : Type} (n : nat) (d : list A) : list A * list A :=
  match n, d with
  | S n', x :: d' => let (out, rest) := popleft_n n' d' in (x :: out, rest)
  | _, _ => ([], d)
  end.
End PyDeque.

(** ** The audio callbacks *)

(** [audio_callback_in(indata, frames, time, status)]; [time] is not used. *)
Definition audio_callback_in (indata : ndarray) (frames : Z) (status : CallbackFlags)
    (st : client) : client :=
  let st :=
    if flags_set status then
      if input_overflow status then bump_mic_overflows st else st
    else st in
  let mono := mono_of indata in
  match PyQueue.put_nowait MAX_QUEUE_SIZE mono (mic_queue st) with
  | inr q => set_mic_queue q st
  | inl _ =>
      (* except queue.Full: drop the oldest chunk, then try again *)
      match PyQueue.get_nowait (mic_queue st) with
      | inl _ => st
      | inr (_, q1) =>
          match PyQueue.put_nowait MAX_QUEUE_SIZE mono q1 with
          | inr q2 => set_mic_queue q2 st
          | inl _ => set_mic_queue q1 st
          end
      end
  end.

(** [audio_callback_out(outdata, frames, time, status)]: the result is
    the column [outdata[:, 0]] the callback has written and the new
    state. *)
Definition audio_callback_out (frames : Z) (status : CallbackFlags) (st : client)
    : list sample * client :=
  let st :=
    if flags_set status then
      if output_underflow status then bump_speaker_underruns st else st
    else st in
  let (outdata, st) :=
    if len (speaker_buffer st) >=? frames then
      let (out, rest) := PyDeque.popleft_n (Z.to_nat frames) (speaker_buffer st) in
      (out, set_speaker_buffer rest st)
    else
      let available := len (speaker_buffer st) in
      let (out, rest) := PyDeque.popleft_n (Z.to_nat available) (speaker_buffer st) in
      let st := set_speaker_buffer rest st in
      (out ++ repeat silence (Z.to_nat (frames - available)),
       if available <? frames / 2 then bump_speaker_underruns st else st) in
  (outdata, set_queue_size (len (speaker_buffer st)) st).

(** ** Python strings *)

Section Utf8.
Local Open Scope N_scope.

Definition continuation (b : N) : bool := (0x80 <=? b) && (b <=? 0xBF).

(** [bytes.decode("utf-8")] on the values of the bytes: [None] stands
    for [UnicodeDecodeError].  Overlong forms, surrogates and code
    points above U+10FFFF are refused, as the strict decoder does. *)
Fixpoint utf8_decode (bs : list N) : option pystr :=
  match bs with
  | [] => Some []
  | b0 :: r0 =>
      if b0 <? 0x80 then option_map (cons b0) (utf8_decode r0)
      else if (0xC2 <=? b0) && (b0 <=? 0xDF) then
        match r0 with
        | b1 :: r1 =>
            if continuation b1
            then option_map (cons ((b0 - 0xC0) * 64 + (b1 - 0x80))) (utf8_decode r1)
            else None
        | _ => None
        end
      else if (0xE0 <=? b0) && (b0 <=? 0xEF) then
        match r0 with
        | b1 :: b2 :: r2 =>
            let cp := (b0 - 0xE0) * 4096 + (b1 - 0x80) * 64 + (b2 - 0x80) in
            if continuation b1 && continuation b2 && (0x800 <=? cp)
               && negb ((0xD800 <=? cp) && (cp <=? 0xDFFF))
            then option_map (cons cp) (utf8_decode r2)
            else None
        | _ => None
        end
      else if (0xF0 <=? b0) && (b0 <=? 0xF4) then
        match r0 with
        | b1 :: b2 :: b3 :: r3 =>
            let cp := (b0 - 0xF0) * 262144 + (b1 - 0x80) * 4096
                      + (b2 - 0x80) * 64 + (b3 - 0x80) in
            if continuation b1 && continuation b2 && continuation b3
               && (0x10000 <=? cp) && (cp <=? 0x10FFFF)
            then option_map (cons cp) (utf8_decode r3)
            else None
        | _ => None
        end
      else None
  end.

(** The code points [str.strip] removes ([str.isspace]). *)
Definition py_isspace (c : N) : bool :=
  ((0x09 <=? c) && (c <=? 0x0D)) || ((0x1C <=? c) && (c <=? 0x20))
  || (c =? 0x85) || (c =? 0xA0) || (c =? 0x1680)
  || ((0x2000 <=? c) && (c <=? 0x200A))
  || (c =? 0x2028) || (c =? 0x2029) || (c =? 0x202F) || (c =? 0x205F) || (c =? 0x3000).

Definition is_ascii (c : N) : bool := c <? 0x80.

(** Lower case of an ASCII character. *)
Definition ascii_lower (c : N) : N :=
  if (0x41 <=? c) && (c <=? 0x5A) then c + 32 else c.
End Utf8.

(** [bytes.decode()] *)
Definition decode (data : list byte) : option pystr := utf8_decode (map Byte.to_N data).

Fixpoint lstrip (s : pystr) : pystr :=
  match s with
  | c :: s' => if py_isspace c then lstrip s' else s
  | [] => []
  end.
Definition rstrip (s : pystr) : pystr := rev (lstrip (rev s)).
(** [str.strip()] *)
Definition strip (s : pystr) : pystr := rstrip (lstrip s).

(** The Unicode character database is not part of the program:
    [str.lower] on a str that has a non-ASCII character is left to
    [unicode_lower]. *)
Class UnicodeData : Type := {
  unicode_lower : pystr -> pystr
}.

(** The Opus stream codec (sphn) is not part of the program either.  A
    writer or reader is modelled by what has been appended to it since
    it was created; what the next [read_bytes] or [read_pcm] returns
    is a function of that history. *)
Class Codec : Type := {
  read_bytes : list (list sample) -> list byte;
  read_pcm : list (list byte) -> list sample
}.

(** [str.lower()] *)
Definition lower {ucd : UnicodeData} (s : pystr) : pystr :=
  if forallb is_ascii s then map ascii_lower s else unicode_lower s.

(** ** The monad of the asynchronous activities *)

Definition M (A : Type) : Type := client -> (exn + A) * client.

Definition ret {A : Type} (a : A) : M A := fun s => (inr a, s).
Definition bind {A B : Type} (m : M A) (k : A -> M B) : M B :=
  fun s => match m s with
           | (inr a, s') => k a s'
           | (inl e, s') => (inl e, s')
           end.
Definition raise {A : Type} (e : exn) : M A := fun s => (inl e, s).
Definition gets {A : Type} (f : client -> A) : M A := fun s => (inr (f s), s).
Definition modify (f : client -> client) : M unit := fun s => (inr tt, f s).
(** [try: m except Exception as e: h e] *)
Definition try_except {A : Type} (m : M A) (h : exn -> M A) : M A :=
  fun s => match m s with
           | (inr a, s') => (inr a, s')
           | (inl e, s') => h e s'
           end.

Declare Scope monad_scope.
Delimit Scope monad_scope with monad.
Notation "x <- m ;; k" := (bind m (fun x => k))
  (at level 61, m at next level, right associativity) : monad_scope.
Notation "m ;; k" := (bind m (fun _ => k))
  (at level 61, right associativity) : monad_scope.
Local Open Scope monad_scope.

(** How a loop body ends: the loop goes on, or a [break] leaves it. *)
Inductive flow : Type :=
| Next
| Break.

Definition print (o : output) : M unit :=
  modify (fun s => set_stdout (stdout s ++ [o]) s).

(** [await ws.send(message)] *)
Definition ws_send (message : ws_message) : M unit :=
  open <- gets ws_open ;;
  if open then modify (fun s => set_ws_sent (ws_sent s ++ [message]) s)
  else raise ConnectionClosed.

(** Reading the global [current_speaker]. *)
Definition read_current_speaker : M pyval :=
  b <- gets current_speaker ;;
  match b with
  | Bound v => ret v
  | Unbound => raise (NameError "current_speaker")
  end.

(** ** Opening a session *)

Definition quote : pystr := [34%N].

(** [json.dumps(config)] *)
Definition config_json : pystr :=
  str "{" ++ quote ++ str "voice_prompt" ++ quote ++ str ": "
  ++ quote ++ str "NATF0.pt" ++ quote ++ str ", "
  ++ quote ++ str "text_prompt" ++ quote ++ str ": "
  ++ quote ++ str "You are a helpful assistant." ++ quote ++ str ", "
  ++ quote ++ str "seed" ++ quote ++ str ": -1}".

(** [while not mic_queue.empty(): mic_queue.get_nowait()] *)
Fixpoint discard_all {A : Type} (q : list A) : list A :=
  match q with
  | [] => []
  | _ :: q' => discard_all q'
  end.

(** The head of the session loop of [stream_conversation], from
    [restart_requested = False] to the test of the first message
    (the banners are left out).  [first] is what [await ws.recv()]
    does.  [Next]: control reaches the activities of the session;
    [Break]: the [break] leaves the session loop; a raised exception
    reaches the handlers of [stream_conversation], which end it. *)
Definition open_session (first : recv_result) : M flow :=
  modify (set_restart_requested false) ;;
  modify (fun s => set_mic_queue (discard_all (mic_queue s)) s) ;;
  modify (set_speaker_buffer []) ;;
  modify (set_current_line_buffer []) ;;
  modify (set_opus_writer []) ;;
  modify (set_opus_reader []) ;;
  print OutSendingConfig ;;
  ws_send (Str config_json) ;;
  print OutWaitingForHandshake ;;
  match first with
  | RecvRaised e => raise e
  | Received msg =>
      match msg with
      | Bytes (b :: _) =>
          if Byte.eqb b x00 then print OutHandshakeReceived ;; ret Next
          else print (OutUnexpectedFirstByte b) ;; ret Break
      | _ => ret Next
      end
  end.

(** One turn of the session loop: the session is opened and, unless
    the loop is left, its [activities] (the three coroutines and what
    follows them) are run. *)
Definition generation (first : recv_result) (activities : M flow) : M flow :=
  f <- open_session first ;;
  match f with
  | Break => ret Break
  | Next => activities
  end.

(** ** The playback buffer *)

(** [np.abs(pcm).mean()] *)
Definition volume (pcm : list sample) : Q :=
  (fold_right Qplus 0 (map Qabs pcm) / inject_Z (len pcm))%Q.

(** [volume > 0.01] *)
Definition loud (pcm : list sample) : bool := negb (Qle_bool (volume pcm) (1 # 100)).

(** The receiver's update of [speaker_buffer]:
    [if len(speaker_buffer) > SAMPLE_RATE * 2: speaker_buffer.clear()]
    and then [speaker_buffer.extend(pcm)]. *)
Definition extend_speaker_buffer (pcm : list sample) (buf : list sample) : list sample :=
  let buf := if len buf >? SAMPLE_RATE * 2 then [] else buf in
  PyDeque.extend SPEAKER_MAXLEN pcm buf.

(** ** Equality of strs *)

Fixpoint pystr_eqb (a b : pystr) : bool :=
  match a, b with
  | [], [] => true
  | x :: a', y :: b' => N.eqb x y && pystr_eqb a' b'
  | _, _ => false
  end.

(** [x != "AI"] for the value of [current_speaker] *)
Definition differs_from_AI (v : pyval) : bool :=
  match v with
  | PyNone => true
  | PyStr s => negb (pystr_eqb s (str "AI"))
  end.

(** A sequence is true when it is not empty. *)
Definition truthy {A : Type} (l : list A) : bool :=
  match l with
  | [] => false
  | _ => true
  end.

Section Activities.
Context {codec : Codec} {ucd : UnicodeData}.

(** *** The sender *)

(** [while not mic_queue.empty(): accumulated = np.concatenate([accumulated, mic_queue.get_nowait()])] *)
Fixpoint drain_into (q : list (list sample)) (acc : list sample) : list sample :=
  match q with
  | [] => acc
  | chunk :: q' => drain_into q' (acc ++ chunk)
  end.

Definition drain_mic_queue : M unit :=
  modify (fun s => set_mic_queue []
                     (set_accumulated (drain_into (mic_queue s) (accumulated s)) s)).

(** [while len(accumulated) >= FRAME_SIZE: ...]: each turn removes a
    frame from [accumulated]; [fuel] bounds the number of turns
    ([send_full_frames] gives as many as there are samples). *)
Fixpoint send_frames (fuel : nat) : M unit :=
  acc <- gets accumulated ;;
  if len acc >=? FRAME_SIZE then
    match fuel with
    | O => ret tt
    | S fuel' =>
        let frame := slice_to FRAME_SIZE acc in
        modify (set_accumulated (slice_from FRAME_SIZE acc)) ;;
        modify (fun s => set_opus_writer (opus_writer s ++ [frame]) s) ;;
        data <- gets (fun s => read_bytes (opus_writer s)) ;;
        (if len data >? 0 then
           ws_send (Bytes (x01 :: data)) ;;
           modify (fun s => set_frame_count (frame_count s + 1) s)
         else ret tt) ;;
        send_frames fuel'
    end
  else ret tt.

Definition send_full_frames : M unit :=
  acc <- gets accumulated ;;
  send_frames (length acc).

(** The body of the sender's loop, up to [asyncio.sleep]. *)
Definition send_poll : M unit :=
  drain_mic_queue ;;
  send_full_frames.

(** The sender's loop.  Each element of [polls] is a turn of the
    loop: the chunks the capture callback has left in [mic_queue]
    since the turn before. *)
Fixpoint send_audio_loop (polls : list (list (list sample))) {struct polls} : M unit :=
  rr <- gets restart_requested ;;
  if rr then ret tt
  else
    match polls with
    | [] => ret tt
    | arrived :: rest =>
        modify (fun s => set_mic_queue (mic_queue s ++ arrived) s) ;;
        f <- try_except (send_poll ;; ret Next)
                        (fun e => print (OutSendError e) ;; ret Break) ;;
        match f with
        | Next => send_audio_loop rest
        | Break => ret tt
        end
    end.

Definition send_audio (polls : list (list (list sample))) : M unit :=
  modify (set_accumulated []) ;;
  modify (set_frame_count 0) ;;
  send_audio_loop polls.

(** *** The receiver *)

(** The body of [async for message in ws]. *)
Definition receive_message (message : ws_message) : M flow :=
  rr <- gets restart_requested ;;
  if rr then ret Break
  else
    match message with
    | Str _ => ret Next
    | Bytes [] => ret Next
    | Bytes (msg_type :: payload) =>
        if Byte.eqb msg_type x00 then
          print OutRestartHandshake ;; ret Next
        else if Byte.eqb msg_type x01 then
          modify (fun s => set_opus_reader (opus_reader s ++ [payload]) s) ;;
          pcm <- gets (fun s => read_pcm (opus_reader s)) ;;
          if len pcm >? 0 then
            (if loud pcm then
               speaker <- read_current_speaker ;;
               if differs_from_AI speaker then
                 line <- gets current_line_buffer ;;
                 (if truthy line then
                    print (OutLine (concat line)) ;;
                    modify (set_current_line_buffer [])
                  else ret tt) ;;
                 modify (set_current_speaker (Bound (PyStr (str "AI")))) ;;
                 print (OutAISpeaker true)
               else ret tt
             else ret tt) ;;
            modify (fun s => set_speaker_buffer
                               (extend_speaker_buffer pcm (speaker_buffer s)) s) ;;
            ret Next
          else ret Next
        else if Byte.eqb msg_type x02 then
          match decode payload with
          | None => raise UnicodeDecodeError
          | Some text =>
              if truthy (strip text) then
                speaker <- read_current_speaker ;;
                (match speaker with
                 | PyNone =>
                     modify (set_current_speaker (Bound (PyStr (str "AI")))) ;;
                     print (OutAISpeaker false)
                 | PyStr _ => ret tt
                 end) ;;
                modify (fun s => set_current_line_buffer (current_line_buffer s ++ [text]) s) ;;
                print (OutText text) ;;
                ret Next
              else ret Next
          end
        else ret Next
    end.

Fixpoint receive_loop (events : list ws_event) : M unit :=
  match events with
  | [] => ret tt
  | ConnectionError :: _ => raise ConnectionClosed
  | Message message :: rest =>
      f <- receive_message message ;;
      match f with
      | Next => receive_loop rest
      | Break => ret tt
      end
  end.

(** [receive_responses()]: the loop inside its [try]. *)
Definition receive_responses (events : list ws_event) : M unit :=
  try_except (receive_loop events)
    (fun e =>
       rr <- gets restart_requested ;;
       if rr then ret tt else print (OutReceiveError e)).

(** *** The command monitor *)

(** [command = line.decode().strip().lower()] *)
Definition parse_command (line : list byte) : M pystr :=
  match decode line with
  | None => raise UnicodeDecodeError
  | Some text => ret (lower (strip text))
  end.

(** The [if command == 'restart': ... elif command == 'quit': ...
    elif command: ...] of the monitor.  [Some b]: [monitor_input]
    returns [b]; [None]: the loop goes on. *)
Definition run_command (command : pystr) : M (option bool) :=
  if pystr_eqb command (str "restart") then
    print OutRestartRequested ;;
    modify (set_restart_requested true) ;;
    ws_send (Bytes [x03; x03]) ;;
    ret (Some true)
  else if pystr_eqb command (str "quit") then
    print OutQuitRequested ;;
    modify (set_restart_requested true) ;;
    ret (Some false)
  else if truthy command then
    print (OutUnknownCommand command) ;;
    ret None
  else ret None.

(** The body of the monitor's loop: a timeout goes on with the loop,
    any other exception is reported and leaves the loop, after which
    [monitor_input] returns [True]. *)
Definition monitor_step (event : stdin_event) : M (option bool) :=
  match event with
  | Timeout => ret None
  | Line line =>
      try_except
        (command <- parse_command line ;; run_command command)
        (fun e => print (OutInputError e) ;; ret (Some true))
  end.

(** [monitor_input()]: [None] when the events end while the loop is
    still waiting for a line. *)
Fixpoint monitor_input (events : list stdin_event) {struct events} : M (option bool) :=
  rr <- gets restart_requested ;;
  if rr then ret (Some true)
  else
    match events with
    | [] => ret None
    | event :: rest =>
        r <- monitor_step event ;;
        match r with
        | Some b => ret (Some b)
        | None => monitor_input rest
        end
    end.
End Activities.

(** Runs of the capture callback: each call gets a block and a status. *)
Definition capture_run (calls : list (ndarray * CallbackFlags)) (st : client) : client :=
  fold_left (fun st c => audio_callback_in (fst c) (len (rows (fst c))) (snd c) st) calls st.

(** ** Vocabulary of the statements *)

(** A codec to run the model on examples: the writer yields one byte
    for the frames it has got, the reader one sample [b / 256] for
    each byte [b] of the last payload. *)
Definition example_codec : Codec :=
  {| read_bytes := fun frames => [x2a];
     read_pcm := fun payloads =>
       map (fun b => Qmake (Z.of_N (Byte.to_N b)) 256) (last payloads []) |}.

(** Unicode data to run the model on examples (which are ASCII). *)
Definition example_ucd : UnicodeData := {| unicode_lower := fun s => s |}.

(** The bytes of an ASCII string. *)
Definition bytes_of (s : string) : list byte := list_byte_of_string s.

(** A message the receiver has no use for: not a [bytes], empty, or
    with a tag other than 0x00, 0x01, 0x02 and 0x03. *)
Definition malformed (m : ws_message) : bool :=
  match m with
  | Str _ => true
  | Bytes [] => true
  | Bytes (tag :: _) =>
      negb (Byte.eqb tag x00 || Byte.eqb tag x01 || Byte.eqb tag x02 || Byte.eqb tag x03)
  end.

(** A str that neither starts nor ends with white space. *)
Definition no_space_around (s : pystr) : Prop :=
  match s with
  | c :: _ => py_isspace c = false
  | [] => True
  end
  /\ match rev s with
     | c :: _ => py_isspace c = false
     | [] => True
     end.

(** Frames of exactly [FRAME_SIZE] samples. *)
Definition full_frames (frames : list (list sample)) : Prop :=
  Forall (fun frame => len frame = FRAME_SIZE) frames.

(** What the receiver keeps of the buffer before it extends it. *)
Definition kept_before_extend (buf : list sample) : list sample :=
  if len buf >? SAMPLE_RATE * 2 then [] else buf.

(** The state after one turn of the sender's frame loop on an open
    connection. *)
Definition after_frame {codec : Codec} (s : client) : client :=
  let frame := slice_to FRAME_SIZE (accumulated s) in
  let s1 := set_opus_writer (opus_writer s ++ [frame])
              (set_accumulated (slice_from FRAME_SIZE (accumulated s)) s) in
  let data := read_bytes (opus_writer s1) in
  if len data >? 0
  then set_frame_count (frame_count s1 + 1)
         (set_ws_sent (ws_sent s1 ++ [Bytes (x01 :: data)]) s1)
  else s1.

(** The operations of the client that touch the playback buffer: the
    receiver handling a message, the playback callback, and the head
    of the session loop. *)
Inductive speaker_op : Type :=
| OpReceive (message : ws_message)
| OpPlayback (frames : Z) (status : CallbackFlags)
| OpOpenSession (first : recv_result).

Definition run_speaker_op {codec : Codec} (s : client) (op : speaker_op) : client :=
  match op with
  | OpReceive message => snd (receive_message message s)
  | OpPlayback frames status => snd (audio_callback_out frames status s)
  | OpOpenSession first => snd (open_session first s)
  end.

Definition run_speaker_ops {codec : Codec} (ops : list speaker_op) (s : client) : client :=
  fold_left run_speaker_op ops s.

(** An input block as sounddevice hands it over: at least one channel,
    and every row has one sample for each channel. *)
Definition well_formed (a : ndarray) : Prop :=
  1 <= shape1 a /\ Forall (fun row => len row = shape1 a) (rows a).

(** A message of the sender: the tag 0x01 and a payload that is not empty. *)
Definition audio_message (m : ws_message) : Prop :=
  exists data, m = Bytes (x01 :: data) /\ 0 < len data.

(** What the receiver prints while [current_speaker] is not bound. *)
Definition receiver_notice (o : output) : Prop :=
  o = OutRestartHandshake \/ exists e, o = OutReceiveError e.

(** The end of a turn of the session loop, after [asyncio.gather] has
    returned: [last] is [continue_session[-1]], the result of the
    command monitor, and [session_num] the local counter of sessions
    (the banner and the pause are left out).  [Break]: the session
    loop is left; [Next]: it goes on with the next session. *)
Definition session_tail (last : bool) (session_num : Z) : M (flow * Z) :=
  if negb last then ret (Break, session_num)
  else
    rr <- gets restart_requested ;;
    if negb rr then ret (Break, session_num)
    else ret (Next, session_num + 1).

(** Counting the calls whose status reports an input overflow. *)
Definition input_overflows (calls : list (ndarray * CallbackFlags)) : Z :=
  len (filter (fun c => input_overflow (snd c)) calls).

(** The capture scenario: chunk [i] holds 100 samples, all equal to [i]. *)
Definition scenario_chunk (i : Z) : list sample := repeat (inject_Z i) 100.
Definition scenario_pushes : list (ndarray * CallbackFlags) :=
  map (fun i => (mono_block (scenario_chunk (Z.of_nat i)), no_flags)) (seq 1 25).

(** * Properties *)

(** ** Lengths, slices and the last elements of a list *)

Lemma len_nil {A : Type} : len (@nil A) = 0.
Proof. reflexivity. Qed.

Lemma len_cons {A : Type} (x : A) (l : list A) : len (x :: l) = len l + 1.
Proof. unfold len. simpl length. lia. Qed.

Lemma len_app {A : Type} (l r : list A) : len (l ++ r) = len l + len r.
Proof. unfold len. rewrite length_app. lia. Qed.

Lemma len_nonneg {A : Type} (l : list A) : 0 <= len l.
Proof. unfold len. lia. Qed.

Lemma len_tl {A : Type} (l : list A) : 0 < len l -> len (tl l) = len l - 1.
Proof.
  destruct l; intros H; [unfold len in H; simpl in H; lia |].
  simpl tl. rewrite len_cons. lia.
Qed.

Lemma len_zero_nil {A : Type} (l : list A) : len l <= 0 -> l = [].
Proof.
  destruct l; intros H; [reflexivity |].
  rewrite len_cons in H. pose proof (len_nonneg l). lia.
Qed.

Lemma len_slice_from {A : Type} (n : Z) (l : list A) :
  0 <= n <= len l -> len (slice_from n l) = len l - n.
Proof. intros H. unfold slice_from, len in *. rewrite length_skipn. lia. Qed.

Lemma len_slice_to {A : Type} (n : Z) (l : list A) :
  0 <= n <= len l -> len (slice_to n l) = n.
Proof. intros H. unfold slice_to, len in *. rewrite length_firstn. lia. Qed.

Lemma slice_to_from {A : Type} (n : Z) (l : list A) : slice_to n l ++ slice_from n l = l.
Proof. apply firstn_skipn. Qed.

Lemma lastn_all {A : Type} (n : Z) (l : list A) : len l <= n -> lastn n l = l.
Proof.
  intros H. unfold lastn, slice_from.
  replace (Z.to_nat (len l - n)) with 0%nat by lia. reflexivity.
Qed.

Lemma len_lastn {A : Type} (n : Z) (l : list A) :
  0 <= n -> len (lastn n l) = Z.min n (len l).
Proof.
  intros H. unfold lastn, slice_from, len. rewrite length_skipn. lia.
Qed.

(** Keeping the last [n] after every addition keeps the last [n] of the whole. *)
Lemma lastn_app_lastn {A : Type} (n : Z) (l r : list A) :
  0 <= n -> lastn n (lastn n l ++ r) = lastn n (l ++ r).
Proof.
  intros Hn.
  destruct (Z_le_gt_dec (len l) n) as [Hle | Hgt].
  - rewrite (lastn_all n l Hle). reflexivity.
  - pose proof (len_nonneg r) as Hr.
    assert (Hb : len (lastn n l) = n) by (rewrite len_lastn by assumption; lia).
    unfold lastn at 1. rewrite len_app, Hb.
    unfold lastn at 2. rewrite len_app.
    unfold lastn, slice_from.
    set (k := Z.to_nat (len l - n)).
    replace (Z.to_nat (n + len r - n)) with (length r) by (unfold len in *; lia).
    replace (Z.to_nat (len l + len r - n)) with (length r + k)%nat
      by (unfold k, len in *; lia).
    assert (Hk : (k <= length l)%nat) by (unfold k, len in *; lia).
    rewrite (skipn_app (length r + k) l).
    replace (length r + k - length l)%nat with (length r - length (skipn k l))%nat
      by (rewrite length_skipn; unfold k, len in *; lia).
    rewrite <- (skipn_skipn (length r) k l).
    apply skipn_app.
Qed.

(** On a full list, the last [n] after one addition drop the head. *)
Lemma lastn_snoc_full {A : Type} (n : Z) (l : list A) (x : A) :
  0 < n -> len l = n -> lastn n (l ++ [x]) = tl l ++ [x].
Proof.
  intros Hn H. unfold lastn, slice_from. rewrite len_app, len_cons, len_nil.
  replace (Z.to_nat (len l + (0 + 1) - n)) with 1%nat by lia.
  destruct l; [rewrite len_nil in H; lia | reflexivity].
Qed.

(** ** The capture queue *)

Lemma mono_of_mono_block (samples : list sample) : mono_of (mono_block samples) = samples.
Proof.
  unfold mono_of, mono_block, flatten. simpl.
  induction samples as [| x l IH]; simpl; [reflexivity | now rewrite IH].
Qed.

(** What the capture callback does to the queue and to the counter. *)
Lemma audio_callback_in_queue (indata : ndarray) (frames : Z) (status : CallbackFlags)
    (st : client) :
  len (mic_queue st) <= MAX_QUEUE_SIZE ->
  mic_queue (audio_callback_in indata frames status st)
  = if len (mic_queue st) <? MAX_QUEUE_SIZE
    then mic_queue st ++ [mono_of indata]
    else tl (mic_queue st) ++ [mono_of indata].
Proof.
  intros Hcap. unfold audio_callback_in, PyQueue.put_nowait, PyQueue.get_nowait.
  set (st1 := if flags_set status then _ else st).
  assert (Hq : mic_queue st1 = mic_queue st).
  { unfold st1. destruct (flags_set status), (input_overflow status); reflexivity. }
  rewrite Hq. unfold MAX_QUEUE_SIZE in *.
  destruct (Z.ltb_spec (len (mic_queue st)) 10) as [Hlt | Hge].
  - replace (10 <=? len (mic_queue st)) with false by (symmetry; apply Z.leb_gt; lia).
    reflexivity.
  - replace (10 <=? len (mic_queue st)) with true by (symmetry; apply Z.leb_le; lia).
    simpl andb. cbv iota.
    destruct (mic_queue st) as [| old q] eqn:E; [rewrite len_nil in Hge; lia |].
    rewrite len_cons in *.
    replace (10 <=? len q) with false by (symmetry; apply Z.leb_gt; lia).
    reflexivity.
Qed.

Lemma audio_callback_in_lastn (indata : ndarray) (frames : Z) (status : CallbackFlags)
    (st : client) :
  len (mic_queue st) <= MAX_QUEUE_SIZE ->
  mic_queue (audio_callback_in indata frames status st)
  = lastn MAX_QUEUE_SIZE (mic_queue st ++ [mono_of indata]).
Proof.
  intros Hcap. rewrite audio_callback_in_queue by assumption.
  destruct (Z.ltb_spec (len (mic_queue st)) MAX_QUEUE_SIZE) as [Hlt | Hge].
  - rewrite lastn_all; [reflexivity |]. rewrite len_app, len_cons, len_nil. lia.
  - rewrite lastn_snoc_full; [reflexivity | reflexivity | lia].
Qed.

Lemma audio_callback_in_stats (indata : ndarray) (frames : Z) (status : CallbackFlags)
    (st : client) :
  stats (audio_callback_in indata frames status st)
  = if input_overflow status
    then {| mic_overflows := mic_overflows (stats st) + 1;
            speaker_underruns := speaker_underruns (stats st);
            queue_size := queue_size (stats st) |}
    else stats st.
Proof.
  unfold audio_callback_in.
  set (st1 := if flags_set status then _ else st).
  assert (Hs : stats st1 = if input_overflow status
                           then stats (bump_mic_overflows st) else stats st).
  { unfold st1, flags_set.
    destruct (input_underflow status), (input_overflow status), (output_underflow status),
      (output_overflow status), (priming_output status); reflexivity. }
  destruct (PyQueue.put_nowait _ _ _) as [e | q].
  - destruct (PyQueue.get_nowait _) as [e' | [x q1]].
    + rewrite Hs. destruct (input_overflow status); reflexivity.
    + destruct (PyQueue.put_nowait _ _ q1); cbn [stats set_mic_queue]; rewrite Hs;
        destruct (input_overflow status); reflexivity.
  - cbn [stats set_mic_queue]. rewrite Hs. destruct (input_overflow status); reflexivity.
Qed.

Lemma capture_run_app (pre post : list (ndarray * CallbackFlags)) (st : client) :
  capture_run (pre ++ post) st = capture_run post (capture_run pre st).
Proof. apply fold_left_app. Qed.

Lemma capture_run_bounded (calls : list (ndarray * CallbackFlags)) (st : client) :
  len (mic_queue st) <= MAX_QUEUE_SIZE ->
  len (mic_queue (capture_run calls st)) <= MAX_QUEUE_SIZE.
Proof.
  revert st. induction calls as [| c calls IH]; intros st Hcap; [exact Hcap |].
  apply IH. rewrite audio_callback_in_lastn by assumption.
  rewrite len_lastn by (unfold MAX_QUEUE_SIZE; lia). lia.
Qed.

Lemma capture_run_lastn (calls : list (ndarray * CallbackFlags)) (st : client) :
  len (mic_queue st) <= MAX_QUEUE_SIZE ->
  mic_queue (capture_run calls st)
  = lastn MAX_QUEUE_SIZE (mic_queue st ++ map (fun c => mono_of (fst c)) calls).
Proof.
  revert st. induction calls as [| c calls IH]; intros st Hcap.
  - simpl. rewrite app_nil_r. symmetry. apply lastn_all. exact Hcap.
  - change (capture_run (c :: calls) st)
      with (capture_run calls (audio_callback_in (fst c) (len (rows (fst c))) (snd c) st)).
    rewrite IH.
    + rewrite audio_callback_in_lastn by assumption.
      rewrite lastn_app_lastn by (unfold MAX_QUEUE_SIZE; lia).
      rewrite <- app_assoc. reflexivity.
    + rewrite audio_callback_in_lastn by assumption.
      rewrite len_lastn by (unfold MAX_QUEUE_SIZE; lia). lia.
Qed.

Lemma capture_run_overflows (calls : list (ndarray * CallbackFlags)) (st : client) :
  mic_overflows (stats (capture_run calls st))
  = mic_overflows (stats st) + input_overflows calls.
Proof.
  revert st. induction calls as [| c calls IH]; intros st.
  - unfold input_overflows. simpl. rewrite len_nil. lia.
  - change (capture_run (c :: calls) st)
      with (capture_run calls (audio_callback_in (fst c) (len (rows (fst c))) (snd c) st)).
    rewrite IH, audio_callback_in_stats. unfold input_overflows. simpl filter.
    destruct (input_overflow (snd c)); [rewrite len_cons; simpl |]; lia.
Qed.

(** C5.  In every run of the capture callback from a queue within its
    capacity, the queue holds at most [MAX_QUEUE_SIZE] entries after
    each push; a push that finds the queue full removes the oldest
    entry and inserts the new one at the end, and a push that finds
    room only inserts: the newest chunk is never the one dropped. *)
Theorem capture_queue_bounded_drop_oldest
    (pre : list (ndarray * CallbackFlags)) (c : ndarray * CallbackFlags) (st : client) :
  len (mic_queue st) <= MAX_QUEUE_SIZE ->
  let before := capture_run pre st in
  let after := capture_run (pre ++ [c]) st in
  len (mic_queue after) <= MAX_QUEUE_SIZE
  /\ (len (mic_queue before) = MAX_QUEUE_SIZE ->
      mic_queue after = tl (mic_queue before) ++ [mono_of (fst c)])
  /\ (len (mic_queue before) < MAX_QUEUE_SIZE ->
      mic_queue after = mic_queue before ++ [mono_of (fst c)]).
Proof.
  intros Hcap before after.
  assert (Hb : len (mic_queue before) <= MAX_QUEUE_SIZE)
    by (apply capture_run_bounded; exact Hcap).
  assert (Ha : mic_queue after
               = if len (mic_queue before) <? MAX_QUEUE_SIZE
                 then mic_queue before ++ [mono_of (fst c)]
                 else tl (mic_queue before) ++ [mono_of (fst c)]).
  { unfold after. rewrite capture_run_app. fold before.
    apply (audio_callback_in_queue (fst c) (len (rows (fst c))) (snd c) before Hb). }
  split; [apply capture_run_bounded; exact Hcap | split; intros H; rewrite Ha].
  - replace (len (mic_queue before) <? MAX_QUEUE_SIZE) with false
      by (symmetry; apply Z.ltb_ge; lia).
    reflexivity.
  - replace (len (mic_queue before) <? MAX_QUEUE_SIZE) with true
      by (symmetry; apply Z.ltb_lt; lia).
    reflexivity.
Qed.

Lemma capture_queue_bounded_drop_oldest_witness :
  len (mic_queue module_loaded) <= MAX_QUEUE_SIZE
  /\ let before := capture_run (firstn 12 scenario_pushes) module_loaded in
     let after :=
       capture_run (firstn 12 scenario_pushes ++ [(mono_block (scenario_chunk 13), no_flags)])
         module_loaded in
     len (mic_queue after) <= MAX_QUEUE_SIZE
     /\ (len (mic_queue before) = MAX_QUEUE_SIZE ->
         mic_queue after
         = tl (mic_queue before) ++ [mono_of (fst (mono_block (scenario_chunk 13), no_flags))])
     /\ (len (mic_queue before) < MAX_QUEUE_SIZE ->
         mic_queue after
         = mic_queue before ++ [mono_of (fst (mono_block (scenario_chunk 13), no_flags))]).
Proof.
  split; [vm_compute; discriminate |].
  apply (capture_queue_bounded_drop_oldest (firstn 12 scenario_pushes)
           (mono_block (scenario_chunk 13), no_flags) module_loaded).
  vm_compute; discriminate.
Defined.

(** C2, as the code has it.  After 25 pushes into the empty queue,
    exactly the last 10 chunks remain, oldest first (15 pushes have
    each removed the oldest entry).  An eviction does not touch the
    overflow counter: [mic_overflows] counts the calls whose status
    reports an input overflow, so it stays 0 when no call does. *)
Theorem capture_last_ten_survive_counter_counts_status
    (calls : list (ndarray * CallbackFlags)) :
  len calls = 25 ->
  let final := capture_run calls module_loaded in
  mic_queue final = map (fun c => mono_of (fst c)) (skipn 15 calls)
  /\ mic_overflows (stats final) = input_overflows calls
  /\ ((forall c, In c calls -> input_overflow (snd c) = false) ->
      mic_overflows (stats final) = 0).
Proof.
  intros Hlen final. split; [| split].
  - unfold final. rewrite capture_run_lastn by (vm_compute; discriminate).
    simpl app. unfold lastn, slice_from.
    replace (Z.to_nat _) with 15%nat.
    + apply skipn_map.
    + unfold len in *. rewrite length_map. unfold MAX_QUEUE_SIZE. lia.
  - unfold final. rewrite capture_run_overflows. reflexivity.
  - intros Hnone. unfold final. rewrite capture_run_overflows.
    unfold input_overflows. simpl.
    replace (filter _ calls) with (@nil (ndarray * CallbackFlags)); [reflexivity |].
    clear - Hnone. induction calls as [| c calls IH]; [reflexivity |].
    simpl. rewrite (Hnone c (or_introl eq_refl)).
    apply IH. intros c' Hin. apply Hnone. right. exact Hin.
Qed.

Lemma capture_last_ten_survive_counter_counts_status_witness :
  len scenario_pushes = 25
  /\ let final := capture_run scenario_pushes module_loaded in
     mic_queue final = map (fun c => mono_of (fst c)) (skipn 15 scenario_pushes)
     /\ mic_overflows (stats final) = input_overflows scenario_pushes
     /\ ((forall c, In c scenario_pushes -> input_overflow (snd c) = false) ->
         mic_overflows (stats final) = 0).
Proof.
  split; [reflexivity |].
  apply (capture_last_ten_survive_counter_counts_status scenario_pushes).
  reflexivity.
Defined.

(** C2 as stated fails: in the scenario the last 10 chunks remain but
    the overflow counter is 0, not 15. *)
Lemma capture_scenario_counter_is_not_15 :
  let final := capture_run scenario_pushes module_loaded in
  mic_queue final = map (fun i => scenario_chunk (Z.of_nat i)) (seq 16 10)
  /\ mic_overflows (stats final) = 0
  /\ ~ (mic_queue final = map (fun i => scenario_chunk (Z.of_nat i)) (seq 16 10)
        /\ mic_overflows (stats final) = 15).
Proof.
  split; [vm_compute; reflexivity | split; [vm_compute; reflexivity |]].
  intros [_ H]. vm_compute in H. discriminate H.
Qed.

(** ** The playback callback *)

Lemma popleft_n_spec {A : Type} (n : nat) (d : list A) :
  (n <= length d)%nat -> PyDeque.popleft_n n d = (firstn n d, skipn n d).
Proof.
  revert d. induction n as [| n IH]; intros d H.
  - destruct d; reflexivity.
  - destruct d as [| x d]; [simpl in H; lia |].
    simpl. rewrite IH by (simpl in H; lia). reflexivity.
Qed.

Lemma status_output_underflow (status : CallbackFlags) (st : client) :
  (if flags_set status then
     if output_underflow status then bump_speaker_underruns st else st
   else st)
  = if output_underflow status then bump_speaker_underruns st else st.
Proof.
  unfold flags_set.
  destruct (input_underflow status), (input_overflow status), (output_underflow status),
    (output_overflow status), (priming_output status); reflexivity.
Qed.

(** The two paths of the playback callback. *)
Lemma audio_callback_out_eq (frames : Z) (status : CallbackFlags) (st : client) :
  0 <= frames ->
  audio_callback_out frames status st
  = let st1 := if output_underflow status then bump_speaker_underruns st else st in
    let buf := speaker_buffer st in
    if frames <=? len buf then
      (slice_to frames buf,
       set_queue_size (len (slice_from frames buf))
         (set_speaker_buffer (slice_from frames buf) st1))
    else
      (buf ++ repeat silence (Z.to_nat (frames - len buf)),
       set_queue_size 0
         (let st2 := set_speaker_buffer [] st1 in
          if len buf <? frames / 2 then bump_speaker_underruns st2 else st2)).
Proof.
  intros Hn. unfold audio_callback_out. rewrite status_output_underflow.
  cbv zeta.
  set (st1 := if output_underflow status then bump_speaker_underruns st else st).
  assert (Hbuf : speaker_buffer st1 = speaker_buffer st)
    by (unfold st1; destruct (output_underflow status); reflexivity).
  rewrite Hbuf. rewrite Z.geb_leb.
  destruct (Z.leb_spec frames (len (speaker_buffer st))) as [Hle | Hgt].
  - rewrite popleft_n_spec by (unfold len in Hle; lia). reflexivity.
  - rewrite popleft_n_spec by (unfold len; lia).
    replace (Z.to_nat (len (speaker_buffer st))) with (length (speaker_buffer st))
      by (unfold len; lia).
    rewrite firstn_all, skipn_all.
    destruct (len (speaker_buffer st) <? frames / 2); reflexivity.
Qed.

(** C7, as the code has it.  A playback callback asking for [frames]
    samples from a buffer of [k] samples emits the first [frames]
    buffered samples when [k >= frames], and otherwise the [k] buffered
    samples followed by [frames - k] zeros.  The shortfall path counts
    an underrun exactly when [k < frames // 2]; for an even [frames]
    (the configured block is 480) that is exactly when the shortfall
    [frames - k] exceeds half of [frames]. *)
Theorem playback_pop_pads_and_counts (frames : Z) (status : CallbackFlags) (st : client) :
  0 <= frames ->
  let k := len (speaker_buffer st) in
  let out := fst (audio_callback_out frames status st) in
  let st' := snd (audio_callback_out frames status st) in
  (frames <= k ->
   out = slice_to frames (speaker_buffer st)
   /\ speaker_buffer st' = slice_from frames (speaker_buffer st))
  /\ (k < frames ->
      out = speaker_buffer st ++ repeat silence (Z.to_nat (frames - k))
      /\ speaker_buffer st' = [])
  /\ len out = frames
  /\ speaker_underruns (stats st')
     = speaker_underruns (stats st)
       + (if output_underflow status then 1 else 0)
       + (if k <? frames / 2 then 1 else 0)
  /\ (Z.even frames = true -> ((k <? frames / 2) = true <-> 2 * (frames - k) > frames)).
Proof.
  intros Hn k out st'. unfold out, st'. rewrite audio_callback_out_eq by assumption.
  cbv zeta. fold k.
  assert (Hhalf : frames / 2 <= frames) by (apply Z.div_le_upper_bound; lia).
  assert (Heven : Z.even frames = true ->
                  ((k <? frames / 2) = true <-> 2 * (frames - k) > frames)).
  { intros H. apply Z.even_spec in H. destruct H as [m Hm]. subst frames.
    rewrite Z.mul_comm, Z.div_mul by lia. rewrite Z.ltb_lt. lia. }
  destruct (Z.leb_spec frames k) as [Hle | Hgt]; cbn [fst snd];
    (split; [| split; [| split; [| split; [| exact Heven]]]]).
  - intros _. split; reflexivity.
  - intros H. lia.
  - apply len_slice_to. unfold k in Hle. lia.
  - replace (k <? frames / 2) with false by (symmetry; apply Z.ltb_ge; lia).
    destruct (output_underflow status); cbn; lia.
  - intros H. lia.
  - intros _. split; [reflexivity |].
    destruct (k <? frames / 2); reflexivity.
  - rewrite len_app. unfold len at 2. rewrite repeat_length. fold k. lia.
  - destruct (k <? frames / 2), (output_underflow status); cbn; lia.
Qed.

Lemma playback_pop_pads_and_counts_witness :
  0 <= 480
  /\ let st := set_speaker_buffer (repeat (1 # 2)%Q 100) module_loaded in
     let k := len (speaker_buffer st) in
     let out := fst (audio_callback_out 480 no_flags st) in
     let st' := snd (audio_callback_out 480 no_flags st) in
     (480 <= k ->
      out = slice_to 480 (speaker_buffer st)
      /\ speaker_buffer st' = slice_from 480 (speaker_buffer st))
     /\ (k < 480 ->
         out = speaker_buffer st ++ repeat silence (Z.to_nat (480 - k))
         /\ speaker_buffer st' = [])
     /\ len out = 480
     /\ speaker_underruns (stats st')
        = speaker_underruns (stats st)
          + (if output_underflow no_flags then 1 else 0)
          + (if k <? 480 / 2 then 1 else 0)
     /\ (Z.even 480 = true -> ((k <? 480 / 2) = true <-> 2 * (480 - k) > 480)).
Proof.
  split; [lia |].
  apply (playback_pop_pads_and_counts 480 no_flags
           (set_speaker_buffer (repeat (1 # 2)%Q 100) module_loaded)).
  lia.
Defined.

(** C7 as stated fails for an odd block: with 5 samples asked and 2
    buffered the shortfall, 3, exceeds half of 5, and the callback,
    which tests [2 < 5 // 2], does not count an underrun. *)
Lemma playback_odd_block_shortfall_not_counted :
  let st := set_speaker_buffer [1%Q; 2%Q] module_loaded in
  let st' := snd (audio_callback_out 5 no_flags st) in
  fst (audio_callback_out 5 no_flags st) = [1%Q; 2%Q; 0%Q; 0%Q; 0%Q]
  /\ 2 * (5 - len (speaker_buffer st)) > 5
  /\ speaker_underruns (stats st') = speaker_underruns (stats st)
  /\ ~ (speaker_underruns (stats st') = speaker_underruns (stats st) + 1
        <-> 2 * (5 - len (speaker_buffer st)) > 5).
Proof.
  vm_compute. repeat split; try reflexivity.
  intros [_ H]. specialize (H eq_refl). discriminate H.
Qed.

(** ** The playback buffer as a bounded deque *)

Lemma deque_append_lastn {A : Type} (maxlen : Z) (x : A) (d : list A) :
  0 <= maxlen -> len d <= maxlen ->
  PyDeque.append maxlen x d = lastn maxlen (d ++ [x]).
Proof.
  intros Hm Hd. unfold PyDeque.append. cbv zeta.
  rewrite len_app, len_cons, len_nil.
  destruct (Z.ltb_spec maxlen (len d + (0 + 1))) as [Hfull | Hroom].
  - assert (Hlen : len d = maxlen) by lia.
    destruct (Z.eq_dec maxlen 0) as [H0 | H0].
    + assert (Hnil : d = []) by (apply len_zero_nil; lia).
      rewrite Hnil, H0. reflexivity.
    + rewrite lastn_snoc_full by lia.
      destruct d; [rewrite len_nil in Hlen; lia | reflexivity].
  - symmetry. apply lastn_all. rewrite len_app, len_cons, len_nil. lia.
Qed.

Lemma deque_extend_lastn {A : Type} (maxlen : Z) (xs d : list A) :
  0 <= maxlen -> len d <= maxlen ->
  PyDeque.extend maxlen xs d = lastn maxlen (d ++ xs).
Proof.
  intros Hm. revert d. induction xs as [| x xs IH]; intros d Hd.
  - simpl. rewrite app_nil_r. symmetry. apply lastn_all. exact Hd.
  - change (PyDeque.extend maxlen (x :: xs) d)
      with (PyDeque.extend maxlen xs (PyDeque.append maxlen x d)).
    rewrite deque_append_lastn by assumption.
    rewrite IH by (rewrite len_lastn by assumption; lia).
    rewrite lastn_app_lastn by assumption.
    rewrite <- app_assoc. reflexivity.
Qed.

Lemma extend_speaker_buffer_lastn (pcm buf : list sample) :
  extend_speaker_buffer pcm buf = lastn SPEAKER_MAXLEN (kept_before_extend buf ++ pcm).
Proof.
  unfold extend_speaker_buffer, kept_before_extend. cbv zeta.
  apply deque_extend_lastn; [unfold SPEAKER_MAXLEN; lia |].
  destruct (Z.gtb_spec (len buf) (SAMPLE_RATE * 2)) as [Hgt | Hle].
  - rewrite len_nil. unfold SPEAKER_MAXLEN. lia.
  - unfold SAMPLE_RATE, SPEAKER_MAXLEN in *. lia.
Qed.

Lemma len_extend_speaker_buffer (pcm buf : list sample) :
  len (extend_speaker_buffer pcm buf)
  = Z.min SPEAKER_MAXLEN (len (kept_before_extend buf) + len pcm).
Proof.
  rewrite extend_speaker_buffer_lastn, len_lastn by (unfold SPEAKER_MAXLEN; lia).
  rewrite len_app. reflexivity.
Qed.

(** C6, as the code has it.  When the depth before the extend exceeds
    48000 samples the buffer is cleared first, and afterwards it holds
    exactly the new samples, provided there are at most 100000 of
    them; when the depth does not exceed 48000 the new samples are
    appended after the content with nothing removed, provided the
    total is at most 100000.  In every case the buffer ends with the
    last 100000 samples of what was kept followed by the new samples. *)
Theorem speaker_extend_clears_or_appends (pcm buf : list sample) :
  (len buf > SAMPLE_RATE * 2 -> len pcm <= SPEAKER_MAXLEN ->
   extend_speaker_buffer pcm buf = pcm)
  /\ (len buf <= SAMPLE_RATE * 2 -> len buf + len pcm <= SPEAKER_MAXLEN ->
      extend_speaker_buffer pcm buf = buf ++ pcm)
  /\ extend_speaker_buffer pcm buf
     = lastn SPEAKER_MAXLEN ((if len buf >? SAMPLE_RATE * 2 then [] else buf) ++ pcm).
Proof.
  split; [| split].
  - intros Hgt Hpcm. rewrite extend_speaker_buffer_lastn. unfold kept_before_extend.
    replace (len buf >? SAMPLE_RATE * 2) with true by (symmetry; apply Z.gtb_lt; lia).
    apply lastn_all. exact Hpcm.
  - intros Hle Htot. rewrite extend_speaker_buffer_lastn. unfold kept_before_extend.
    replace (len buf >? SAMPLE_RATE * 2) with false
      by (symmetry; rewrite Z.gtb_ltb; apply Z.ltb_ge; lia).
    apply lastn_all. rewrite len_app. exact Htot.
  - apply extend_speaker_buffer_lastn.
Qed.

Lemma speaker_extend_clears_or_appends_witness :
  let buf : list sample := repeat (1 # 4)%Q (Z.to_nat (24000 * 3)) in
  let pcm : list sample := [(1 # 2)%Q; (1 # 3)%Q] in
  (len buf > SAMPLE_RATE * 2 /\ len pcm <= SPEAKER_MAXLEN)
  /\ extend_speaker_buffer pcm buf = pcm.
Proof.
  intros buf pcm.
  assert (Hbuf : len buf > SAMPLE_RATE * 2).
  { unfold buf, len. rewrite repeat_length. unfold SAMPLE_RATE. lia. }
  assert (Hpcm : len pcm <= SPEAKER_MAXLEN) by (vm_compute; discriminate).
  split; [split; assumption |].
  exact (proj1 (speaker_extend_clears_or_appends pcm buf) Hbuf Hpcm).
Defined.

(** C6 as stated fails for a large batch: a buffer of 48000 samples
    does not exceed the ceiling, and extending it with 52001 samples
    removes its oldest sample, since the deque holds at most 100000. *)
Lemma speaker_extend_large_batch_drops_oldest :
  let buf : list sample := (1 # 2)%Q :: repeat silence (Z.to_nat 47999) in
  let pcm : list sample := repeat (1 # 3)%Q (Z.to_nat 52001) in
  len buf = 48000
  /\ extend_speaker_buffer pcm buf = repeat silence (Z.to_nat 47999) ++ pcm
  /\ extend_speaker_buffer pcm buf <> buf ++ pcm.
Proof.
  intros buf pcm.
  assert (Hbuf : len buf = 48000).
  { unfold buf. rewrite len_cons. unfold len. rewrite repeat_length. lia. }
  assert (Hpcm : len pcm = 52001).
  { unfold pcm, len. rewrite repeat_length. lia. }
  assert (Hres : extend_speaker_buffer pcm buf = repeat silence (Z.to_nat 47999) ++ pcm).
  { rewrite extend_speaker_buffer_lastn. unfold kept_before_extend.
    replace (len buf >? SAMPLE_RATE * 2) with false by (rewrite Hbuf; reflexivity).
    unfold lastn, slice_from. rewrite len_app, Hbuf, Hpcm.
    replace (Z.to_nat (48000 + 52001 - SPEAKER_MAXLEN)) with 1%nat
      by (unfold SPEAKER_MAXLEN; lia).
    reflexivity. }
  split; [exact Hbuf | split; [exact Hres |]].
  rewrite Hres. intros H. apply (f_equal len) in H.
  rewrite !len_app, Hbuf, Hpcm in H.
  unfold len in H. rewrite repeat_length in H. lia.
Qed.

(** ** The frame assembler of the sender *)

Lemma drain_into_concat (q : list (list sample)) (acc : list sample) :
  drain_into q acc = acc ++ concat q.
Proof.
  revert acc. induction q as [| chunk q IH]; intros acc; simpl.
  - now rewrite app_nil_r.
  - rewrite IH, <- app_assoc. reflexivity.
Qed.

Section Sender.
Context {codec : Codec}.

Lemma send_frames_turn (fuel : nat) (s : client) :
  ws_open s = true ->
  FRAME_SIZE <= len (accumulated s) ->
  send_frames (S fuel) s = send_frames fuel (after_frame s).
Proof.
  intros Hopen Hge.
  unfold send_frames at 1; fold send_frames.
  unfold bind at 1. unfold gets at 1.
  replace (len (accumulated s) >=? FRAME_SIZE) with true
    by (symmetry; rewrite Z.geb_leb; apply Z.leb_le; exact Hge).
  unfold after_frame. cbv zeta.
  unfold bind, modify, gets, ws_send, ret. cbn -[send_frames Z.gtb len].
  destruct (len (read_bytes _) >? 0); cbn -[send_frames Z.gtb len].
  - rewrite Hopen. reflexivity.
  - reflexivity.
Qed.

Lemma send_frames_done (fuel : nat) (s : client) :
  len (accumulated s) < FRAME_SIZE ->
  send_frames fuel s = (inr tt, s).
Proof.
  intros Hlt. destruct fuel; unfold send_frames; fold send_frames;
    unfold bind, gets;
    replace (len (accumulated s) >=? FRAME_SIZE) with false
      by (symmetry; rewrite Z.geb_leb; apply Z.leb_gt; exact Hlt);
    reflexivity.
Qed.

(** The frame loop on an open connection: it ends, having fed the
    writer with full frames taken in order from the front of
    [accumulated], and leaves less than a frame. *)
Lemma send_frames_spec (fuel : nat) (s : client) :
  ws_open s = true ->
  (length (accumulated s) <= fuel)%nat ->
  exists s' frames,
    send_frames fuel s = (inr tt, s')
    /\ opus_writer s' = opus_writer s ++ frames
    /\ full_frames frames
    /\ concat frames ++ accumulated s' = accumulated s
    /\ len (accumulated s') < FRAME_SIZE
    /\ ws_open s' = true
    /\ restart_requested s' = restart_requested s
    /\ mic_queue s' = mic_queue s.
Proof.
  revert s. induction fuel as [| fuel IH]; intros s Hopen Hfuel.
  - exists s, [].
    assert (Hlt : len (accumulated s) < FRAME_SIZE)
      by (unfold len, FRAME_SIZE; lia).
    rewrite send_frames_done by exact Hlt.
    rewrite app_nil_r. repeat split; try reflexivity; try assumption. constructor.
  - destruct (Z_lt_le_dec (len (accumulated s)) FRAME_SIZE) as [Hlt | Hge].
    + exists s, []. rewrite send_frames_done by exact Hlt.
      rewrite app_nil_r. repeat split; try reflexivity; try assumption. constructor.
    + rewrite send_frames_turn by assumption.
      assert (Hacc : accumulated (after_frame s) = slice_from FRAME_SIZE (accumulated s))
        by (unfold after_frame; cbv zeta; destruct (len _ >? 0); reflexivity).
      assert (Hwr : opus_writer (after_frame s)
                    = opus_writer s ++ [slice_to FRAME_SIZE (accumulated s)])
        by (unfold after_frame; cbv zeta; destruct (len _ >? 0); reflexivity).
      assert (Hop : ws_open (after_frame s) = true)
        by (unfold after_frame; cbv zeta; destruct (len _ >? 0); exact Hopen).
      assert (Hrr : restart_requested (after_frame s) = restart_requested s)
        by (unfold after_frame; cbv zeta; destruct (len _ >? 0); reflexivity).
      assert (Hmq : mic_queue (after_frame s) = mic_queue s)
        by (unfold after_frame; cbv zeta; destruct (len _ >? 0); reflexivity).
      destruct (IH (after_frame s) Hop) as (s' & frames & Hrun & Hw & Hfull & Hcat & Hres & Ho & Hr & Hq).
      { rewrite Hacc. unfold slice_from. rewrite length_skipn.
        unfold len, FRAME_SIZE in *. lia. }
      exists s', (slice_to FRAME_SIZE (accumulated s) :: frames).
      split; [exact Hrun |]. split; [rewrite Hw, Hwr, <- app_assoc; reflexivity |].
      split; [constructor; [apply len_slice_to; unfold FRAME_SIZE in *; lia | exact Hfull] |].
      split; [simpl concat; rewrite <- app_assoc, Hcat, Hacc; apply slice_to_from |].
      split; [exact Hres |]. split; [exact Ho |].
      split; [rewrite Hr; exact Hrr | rewrite Hq; exact Hmq].
Qed.

(** One poll on an open connection. *)
Lemma send_poll_spec (s : client) :
  ws_open s = true ->
  exists s' frames,
    send_poll s = (inr tt, s')
    /\ opus_writer s' = opus_writer s ++ frames
    /\ full_frames frames
    /\ concat frames ++ accumulated s' = accumulated s ++ concat (mic_queue s)
    /\ len (accumulated s') < FRAME_SIZE
    /\ ws_open s' = true
    /\ restart_requested s' = restart_requested s
    /\ mic_queue s' = [].
Proof.
  intros Hopen.
  set (s1 := set_mic_queue [] (set_accumulated (drain_into (mic_queue s) (accumulated s)) s)).
  assert (Hrun : send_poll s = send_frames (length (accumulated s1)) s1) by reflexivity.
  destruct (send_frames_spec (length (accumulated s1)) s1 Hopen (le_n _))
    as (s' & frames & Hf & Hw & Hfull & Hcat & Hres & Ho & Hr & Hq).
  exists s', frames. rewrite Hrun.
  split; [exact Hf |]. split; [exact Hw |]. split; [exact Hfull |].
  split; [rewrite Hcat; apply drain_into_concat |].
  repeat split; assumption.
Qed.

(** The sender's loop on an open connection, while no restart is asked. *)
Lemma send_audio_loop_spec (polls : list (list (list sample))) (s : client) :
  ws_open s = true ->
  restart_requested s = false ->
  mic_queue s = [] ->
  len (accumulated s) < FRAME_SIZE ->
  exists s' frames,
    send_audio_loop polls s = (inr tt, s')
    /\ opus_writer s' = opus_writer s ++ frames
    /\ full_frames frames
    /\ concat frames ++ accumulated s' = accumulated s ++ concat (concat polls)
    /\ len (accumulated s') < FRAME_SIZE.
Proof.
  revert s. induction polls as [| arrived polls IH]; intros s Hopen Hrr Hq Hres.
  - exists s, []. unfold send_audio_loop, bind, gets. rewrite Hrr.
    simpl. rewrite !app_nil_r. repeat split; try assumption; constructor.
  - set (s1 := set_mic_queue (mic_queue s ++ arrived) s).
    destruct (send_poll_spec s1 Hopen)
      as (s2 & frames1 & Hp & Hw1 & Hfull1 & Hcat1 & Hres1 & Ho1 & Hr1 & Hq1).
    assert (Hstep : send_audio_loop (arrived :: polls) s = send_audio_loop polls s2).
    { unfold send_audio_loop at 1; fold send_audio_loop.
      unfold bind at 1. unfold gets at 1. rewrite Hrr.
      unfold bind at 1. unfold modify at 1. fold s1.
      unfold bind at 1. unfold try_except, bind at 1. rewrite Hp. reflexivity. }
    destruct (IH s2 Ho1 (eq_trans Hr1 Hrr) Hq1 Hres1)
      as (s' & frames & Hl & Hw & Hfull & Hcat & Hres').
    exists s', (frames1 ++ frames). rewrite Hstep.
    split; [exact Hl |].
    split; [rewrite Hw, Hw1, <- app_assoc; reflexivity |].
    split; [apply Forall_app; split; assumption |].
    split; [| exact Hres'].
    rewrite concat_app, <- app_assoc, Hcat, app_assoc, Hcat1.
    unfold s1. cbn. rewrite Hq. simpl. rewrite concat_app, <- app_assoc. reflexivity.
Qed.
End Sender.

(** C4.  Whatever the chunks the sender finds in the queue at its
    polls, on an open connection and while no restart is asked the
    sender ends each run having handed to the encoder frames of
    exactly [FRAME_SIZE] samples; these frames, in order, followed by
    what is left in [accumulated], are the captured stream, sample for
    sample, and what is left is shorter than a frame. *)
Theorem frame_assembler_round_trip {codec : Codec}
    (polls : list (list (list sample))) (s : client) :
  ws_open s = true ->
  restart_requested s = false ->
  mic_queue s = [] ->
  exists s' frames,
    send_audio polls s = (inr tt, s')
    /\ opus_writer s' = opus_writer s ++ frames
    /\ Forall (fun frame => len frame = FRAME_SIZE) frames
    /\ concat frames ++ accumulated s' = concat (concat polls)
    /\ len (accumulated s') < FRAME_SIZE.
Proof.
  intros Hopen Hrr Hq.
  set (s0 := set_frame_count 0 (set_accumulated [] s)).
  assert (Hrun : send_audio polls s = send_audio_loop polls s0) by reflexivity.
  destruct (send_audio_loop_spec polls s0 Hopen Hrr Hq)
    as (s' & frames & Hl & Hw & Hfull & Hcat & Hres).
  { unfold s0. cbn. unfold FRAME_SIZE. lia. }
  exists s', frames. rewrite Hrun.
  repeat split; assumption.
Qed.

Lemma frame_assembler_round_trip_witness :
  let polls : list (list (list sample)) :=
    [[repeat (1 # 2)%Q 300]; []; [repeat (1 # 3)%Q 300; repeat (1 # 4)%Q 500]] in
  (ws_open module_loaded = true
   /\ restart_requested module_loaded = false
   /\ mic_queue module_loaded = [])
  /\ exists s' frames,
       send_audio (codec := example_codec) polls module_loaded = (inr tt, s')
       /\ opus_writer s' = opus_writer module_loaded ++ frames
       /\ Forall (fun frame => len frame = FRAME_SIZE) frames
       /\ concat frames ++ accumulated s' = concat (concat polls)
       /\ len (accumulated s') < FRAME_SIZE.
Proof.
  intros polls. split; [repeat split |].
  apply (frame_assembler_round_trip (codec := example_codec) polls module_loaded);
    reflexivity.
Defined.

(** ** Opening a session *)

(** The state in which [open_session] awaits the first message, on an
    open connection. *)
Lemma open_session_received (msg : ws_message) (s : client) :
  ws_open s = true ->
  exists s0,
    restart_requested s0 = false
    /\ speaker_buffer s0 = []
    /\ mic_queue s0 = []
    /\ ws_sent s0 = ws_sent s ++ [Str config_json]
    /\ open_session (Received msg) s
       = match msg with
         | Bytes (b :: _) =>
             if Byte.eqb b x00
             then (inr Next, set_stdout (stdout s0 ++ [OutHandshakeReceived]) s0)
             else (inr Break, set_stdout (stdout s0 ++ [OutUnexpectedFirstByte b]) s0)
         | _ => (inr Next, s0)
         end.
Proof.
  intros Hopen.
  assert (Hdiscard : forall q : list (list sample), discard_all q = [])
    by (induction q; [reflexivity | assumption]).
  eexists. split; [| split; [| split; [| split]]].
  5: { unfold open_session, bind, modify, print, ws_send, gets, ret.
       cbn -[config_json]. rewrite Hopen.
       destruct msg as [[| b data] | text]; [reflexivity | | reflexivity].
       destruct (Byte.eqb b x00); reflexivity. }
  - reflexivity.
  - reflexivity.
  - cbn. apply Hdiscard.
  - reflexivity.
Qed.

(** A first message with a tag other than 0x00 leaves the session
    loop, and an exception raised by [recv] is not caught by it. *)
Lemma open_session_rejects (s : client) :
  ws_open s = true ->
  (forall b data, Byte.eqb b x00 = false ->
     fst (open_session (Received (Bytes (b :: data))) s) = inr Break)
  /\ (forall e, fst (open_session (RecvRaised e) s) = inl e).
Proof.
  intros Hopen. split.
  - intros b data Hb.
    destruct (open_session_received (Bytes (b :: data)) s Hopen) as (s0 & _ & _ & _ & _ & H).
    rewrite H, Hb. reflexivity.
  - intros e. unfold open_session, bind, modify, print, ws_send, gets, ret, raise.
    cbn -[config_json]. rewrite Hopen. reflexivity.
Qed.

(** C1, where the code departs from it.  On an open connection, a
    first message that is a text frame or an empty binary frame is no
    handshake, and [open_session] neither leaves the session loop nor
    raises: the activities of the session are run. *)
Theorem first_message_text_or_empty_runs_activities
    (msg : ws_message) (activities : M flow) (s : client) :
  ws_open s = true ->
  (msg = Bytes [] \/ exists text, msg = Str text) ->
  exists s0,
    open_session (Received msg) s = (inr Next, s0)
    /\ generation (Received msg) activities s = activities s0.
Proof.
  intros Hopen Hmsg.
  destruct (open_session_received msg s Hopen) as (s0 & _ & _ & _ & _ & H).
  exists s0.
  assert (Hnext : open_session (Received msg) s = (inr Next, s0)).
  { rewrite H. destruct Hmsg as [-> | [text ->]]; reflexivity. }
  split; [exact Hnext |].
  unfold generation, bind. rewrite Hnext. reflexivity.
Qed.

Lemma first_message_text_or_empty_runs_activities_witness :
  (ws_open module_loaded = true
   /\ (Str (str "hello") = Bytes [] \/ exists text, Str (str "hello") = Str text))
  /\ exists s0,
       open_session (Received (Str (str "hello"))) module_loaded = (inr Next, s0)
       /\ generation (Received (Str (str "hello"))) (ret Next) module_loaded = ret Next s0.
Proof.
  assert (H : Str (str "hello") = Bytes [] \/ exists text, Str (str "hello") = Str text)
    by (right; exists (str "hello"); reflexivity).
  split; [split; [reflexivity | exact H] |].
  exact (first_message_text_or_empty_runs_activities
           (Str (str "hello")) (ret Next) module_loaded eq_refl H).
Defined.

(** ** The receiver *)

Section Receiver.
Context {codec : Codec}.

Lemma receive_message_stopped (m : ws_message) (s : client) :
  restart_requested s = true -> receive_message m s = (inr Break, s).
Proof. intros H. unfold receive_message, bind, gets. rewrite H. reflexivity. Qed.

Lemma receive_message_malformed (m : ws_message) (s : client) :
  malformed m = true ->
  receive_message m s = (inr (if restart_requested s then Break else Next), s).
Proof.
  intros Hm. unfold receive_message, bind, gets.
  destruct (restart_requested s); [reflexivity |].
  destruct m as [[| tag payload] | text]; try reflexivity.
  simpl in Hm. apply negb_true_iff in Hm.
  apply orb_false_iff in Hm. destruct Hm as [Hm _].
  apply orb_false_iff in Hm. destruct Hm as [Hm H2].
  apply orb_false_iff in Hm. destruct Hm as [H0 H1].
  rewrite H0, H1, H2. reflexivity.
Qed.

Lemma receive_responses_cons (m : ws_message) (rest : list ws_event) (s : client) :
  receive_responses (Message m :: rest) s
  = match receive_message m s with
    | (inr Next, s1) => receive_responses rest s1
    | (inr Break, s1) => (inr tt, s1)
    | (inl e, s1) =>
        if restart_requested s1 then (inr tt, s1)
        else (inr tt, set_stdout (stdout s1 ++ [OutReceiveError e]) s1)
    end.
Proof.
  unfold receive_responses, try_except. simpl receive_loop. unfold bind at 1.
  destruct (receive_message m s) as [[e | [|]] s1]; try reflexivity.
  unfold bind, gets. destruct (restart_requested s1); reflexivity.
Qed.

Lemma receive_responses_stopped (events : list ws_event) (s : client) :
  restart_requested s = true -> receive_responses events s = (inr tt, s).
Proof.
  intros H. destruct events as [| [m |] rest].
  - reflexivity.
  - rewrite receive_responses_cons, receive_message_stopped by exact H. reflexivity.
  - unfold receive_responses, try_except, bind, gets. simpl. rewrite H. reflexivity.
Qed.

Lemma receive_responses_skip (m : ws_message) (pre post : list ws_event) (s : client) :
  malformed m = true ->
  receive_responses (pre ++ Message m :: post) s = receive_responses (pre ++ post) s.
Proof.
  intros Hm. revert s. induction pre as [| [m0 |] pre IH]; intros s.
  - simpl app. destruct (restart_requested s) eqn:Hrr.
    + rewrite !receive_responses_stopped by exact Hrr. reflexivity.
    + rewrite receive_responses_cons, receive_message_malformed by exact Hm.
      rewrite Hrr. reflexivity.
  - simpl app. rewrite !receive_responses_cons.
    destruct (receive_message m0 s) as [[e | [|]] s1]; try reflexivity.
    apply IH.
  - reflexivity.
Qed.

(** The receiver binds [current_speaker] only after it has read it:
    a name that is not bound stays so. *)
Lemma current_speaker_stays_unbound (m : ws_message) (s : client) :
  current_speaker s = Unbound ->
  current_speaker (snd (receive_message m s)) = Unbound.
Proof.
  intros Hu. unfold receive_message, bind, gets.
  destruct (restart_requested s); [exact Hu |].
  destruct m as [[| tag payload] | text]; try exact Hu.
  destruct (Byte.eqb tag x00); [exact Hu |].
  destruct (Byte.eqb tag x01).
  - unfold modify, read_current_speaker, bind, gets. cbn -[read_pcm loud len Z.gtb].
    destruct (len _ >? 0); [| exact Hu].
    destruct (loud _); cbn -[read_pcm len]; rewrite ?Hu; first [exact Hu | reflexivity].
  - destruct (Byte.eqb tag x02); [| exact Hu].
    destruct (decode payload) as [text |]; [| exact Hu].
    destruct (truthy (strip text)); [| exact Hu].
    unfold read_current_speaker, bind, gets. rewrite Hu. cbn. exact Hu.
Qed.
End Receiver.

(** C3, where the code departs from it.  The module never binds
    [current_speaker].  While it is not bound, an audio message whose
    decoded samples are not empty and louder than the threshold makes
    the receiver raise [NameError] when it reads the name: the samples
    are not appended to the playback buffer, the receiver reports the
    error and stops, and the messages that follow are not read. *)
Theorem loud_audio_chunk_stops_receiver {codec : Codec}
    (payload : list byte) (rest : list ws_event) (s : client) :
  restart_requested s = false ->
  current_speaker s = Unbound ->
  len (read_pcm (opus_reader s ++ [payload])) > 0 ->
  loud (read_pcm (opus_reader s ++ [payload])) = true ->
  let s1 := set_opus_reader (opus_reader s ++ [payload]) s in
  receive_message (Bytes (x01 :: payload)) s = (inl (NameError "current_speaker"), s1)
  /\ speaker_buffer s1 = speaker_buffer s
  /\ receive_responses (Message (Bytes (x01 :: payload)) :: rest) s
     = (inr tt, set_stdout (stdout s ++ [OutReceiveError (NameError "current_speaker")]) s1).
Proof.
  intros Hrr Hu Hlen Hloud s1.
  assert (Hstep : receive_message (Bytes (x01 :: payload)) s
                  = (inl (NameError "current_speaker"), s1)).
  { unfold receive_message, bind, gets. rewrite Hrr.
    cbn -[read_pcm loud len Z.gtb].
    replace (len (read_pcm (opus_reader s ++ [payload])) >? 0) with true
      by (symmetry; apply Z.gtb_lt; lia).
    rewrite Hloud. unfold read_current_speaker, bind, gets.
    cbn -[read_pcm]. rewrite Hu. reflexivity. }
  split; [exact Hstep | split; [reflexivity |]].
  rewrite receive_responses_cons, Hstep.
  unfold s1. cbn. rewrite Hrr. reflexivity.
Qed.

Lemma loud_audio_chunk_stops_receiver_witness :
  let payload := [x80] in
  let rest := [Message (Bytes [x01; x80])] in
  (restart_requested module_loaded = false
   /\ current_speaker module_loaded = Unbound
   /\ len (read_pcm (Codec := example_codec) (opus_reader module_loaded ++ [payload])) > 0
   /\ loud (read_pcm (Codec := example_codec) (opus_reader module_loaded ++ [payload])) = true)
  /\ let s1 := set_opus_reader (opus_reader module_loaded ++ [payload]) module_loaded in
     receive_message (codec := example_codec) (Bytes (x01 :: payload)) module_loaded
     = (inl (NameError "current_speaker"), s1)
     /\ speaker_buffer s1 = speaker_buffer module_loaded
     /\ receive_responses (codec := example_codec)
          (Message (Bytes (x01 :: payload)) :: rest) module_loaded
        = (inr tt,
           set_stdout (stdout module_loaded ++ [OutReceiveError (NameError "current_speaker")])
             s1).
Proof.
  intros payload rest.
  split; [repeat split |].
  apply (loud_audio_chunk_stops_receiver (codec := example_codec) payload rest module_loaded);
    reflexivity.
Defined.

(** C8.  A received message that is not a [bytes], is empty, or has a
    tag other than 0x00, 0x01, 0x02 and 0x03 is dropped: the body of
    the receiver's loop leaves the whole state (buffers, counters,
    flags, line buffer, console) as it was and raises nothing, and the
    receiver run on a stream with such a message does exactly what it
    does on the stream without it. *)
Theorem malformed_message_is_dropped {codec : Codec} (m : ws_message) :
  malformed m = true ->
  (forall s, receive_message m s = (inr (if restart_requested s then Break else Next), s))
  /\ (forall pre post s,
        receive_responses (pre ++ Message m :: post) s = receive_responses (pre ++ post) s).
Proof.
  intros Hm. split.
  - intros s. apply receive_message_malformed. exact Hm.
  - intros pre post s. apply receive_responses_skip. exact Hm.
Qed.

Lemma malformed_message_is_dropped_witness :
  malformed (Bytes [x7f; x01; x02]) = true
  /\ (forall s,
        receive_message (codec := example_codec) (Bytes [x7f; x01; x02]) s
        = (inr (if restart_requested s then Break else Next), s))
  /\ (forall pre post s,
        receive_responses (codec := example_codec)
          (pre ++ Message (Bytes [x7f; x01; x02]) :: post) s
        = receive_responses (codec := example_codec) (pre ++ post) s).
Proof.
  split; [reflexivity |].
  apply (malformed_message_is_dropped (codec := example_codec) (Bytes [x7f; x01; x02])).
  reflexivity.
Defined.

(** ** The hard cap of the playback buffer *)

Lemma popleft_n_rest_length {A : Type} (n : nat) (d : list A) :
  (length (snd (PyDeque.popleft_n n d)) <= length d)%nat.
Proof.
  revert d. induction n as [| n IH]; intros d.
  - destruct d; simpl; lia.
  - destruct d as [| x d]; [simpl; lia |].
    simpl. specialize (IH d). destruct (PyDeque.popleft_n n d) as [out rest].
    simpl in *. lia.
Qed.

Lemma audio_callback_out_depth (frames : Z) (status : CallbackFlags) (s : client) :
  len (speaker_buffer (snd (audio_callback_out frames status s))) <= len (speaker_buffer s).
Proof.
  unfold audio_callback_out. rewrite status_output_underflow.
  set (s1 := if output_underflow status then bump_speaker_underruns s else s).
  assert (Hbuf : speaker_buffer s1 = speaker_buffer s)
    by (unfold s1; destruct (output_underflow status); reflexivity).
  rewrite Hbuf.
  destruct (len (speaker_buffer s) >=? frames).
  - pose proof (popleft_n_rest_length (Z.to_nat frames) (speaker_buffer s)) as H.
    destruct (PyDeque.popleft_n _ _) as [out rest]. cbn in *. unfold len. lia.
  - pose proof (popleft_n_rest_length (Z.to_nat (len (speaker_buffer s))) (speaker_buffer s))
      as H.
    destruct (PyDeque.popleft_n _ _) as [out rest].
    destruct (len (speaker_buffer s) <? frames / 2); cbn in *; unfold len; lia.
Qed.

Lemma open_session_clears (first : recv_result) (s : client) :
  speaker_buffer (snd (open_session first s)) = [].
Proof.
  unfold open_session, bind, modify, print, ws_send, gets, ret, raise.
  cbn -[config_json].
  destruct (ws_open s); [| reflexivity].
  destruct first as [[[| b data] | text] | e]; try reflexivity.
  destruct (Byte.eqb b x00); reflexivity.
Qed.

Lemma receive_message_speaker_buffer {codec : Codec} (m : ws_message) (s : client) :
  speaker_buffer (snd (receive_message m s)) = speaker_buffer s
  \/ exists pcm,
       speaker_buffer (snd (receive_message m s))
       = extend_speaker_buffer pcm (speaker_buffer s).
Proof.
  unfold receive_message, bind, gets.
  destruct (restart_requested s); [left; reflexivity |].
  destruct m as [[| tag payload] | text]; try (left; reflexivity).
  destruct (Byte.eqb tag x00); [left; reflexivity |].
  destruct (Byte.eqb tag x01).
  - unfold modify, read_current_speaker, bind, gets, print, ret, raise.
    cbn -[read_pcm loud len Z.gtb extend_speaker_buffer].
    set (pcm := read_pcm (opus_reader s ++ [payload])).
    destruct (len pcm >? 0); [| left; reflexivity].
    destruct (loud pcm); [| right; exists pcm; reflexivity].
    change (current_speaker (set_opus_reader (opus_reader s ++ [payload]) s))
      with (current_speaker s).
    destruct (current_speaker s) as [| v]; [left; reflexivity |].
    destruct (differs_from_AI v); [| right; exists pcm; reflexivity].
    change (current_line_buffer (set_opus_reader (opus_reader s ++ [payload]) s))
      with (current_line_buffer s).
    destruct (truthy (current_line_buffer s)); right; exists pcm; reflexivity.
  - destruct (Byte.eqb tag x02); [| left; reflexivity].
    destruct (decode payload) as [text |]; [| left; reflexivity].
    destruct (truthy (strip text)); [| left; reflexivity].
    unfold modify, read_current_speaker, bind, gets, print, ret, raise.
    destruct (current_speaker s) as [| [| v]]; left; reflexivity.
Qed.

Lemma run_speaker_op_bounded {codec : Codec} (op : speaker_op) (s : client) :
  len (speaker_buffer s) <= SPEAKER_MAXLEN ->
  len (speaker_buffer (run_speaker_op s op)) <= SPEAKER_MAXLEN.
Proof.
  intros H. destruct op as [m | frames status | first]; simpl.
  - destruct (receive_message_speaker_buffer m s) as [E | [pcm E]]; rewrite E.
    + exact H.
    + rewrite len_extend_speaker_buffer. lia.
  - pose proof (audio_callback_out_depth frames status s). lia.
  - rewrite open_session_clears. rewrite len_nil. unfold SPEAKER_MAXLEN. lia.
Qed.

Lemma run_speaker_ops_bounded {codec : Codec} (ops : list speaker_op) (s : client) :
  len (speaker_buffer s) <= SPEAKER_MAXLEN ->
  len (speaker_buffer (run_speaker_ops ops s)) <= SPEAKER_MAXLEN.
Proof.
  revert s. induction ops as [| op ops IH]; intros s H; [exact H |].
  apply IH. apply run_speaker_op_bounded. exact H.
Qed.

(** C10.  The playback buffer is a deque of at most 100000 samples:
    whatever the client does to it from the moment the module is
    loaded, its depth is at most 100000; and an extend that would
    bring what the receiver keeps of the buffer, with the new samples,
    over 100000 discards the oldest samples in excess, without any
    notice. *)
Theorem speaker_buffer_hard_cap {codec : Codec} (ops : list speaker_op) (pcm : list sample) :
  len (speaker_buffer (run_speaker_ops ops module_loaded)) <= SPEAKER_MAXLEN
  /\ (forall buf, len (extend_speaker_buffer pcm buf) <= SPEAKER_MAXLEN)
  /\ (forall buf,
        let kept := if len buf >? SAMPLE_RATE * 2 then [] else buf in
        len kept + len pcm > SPEAKER_MAXLEN ->
        extend_speaker_buffer pcm buf
        = slice_from (len kept + len pcm - SPEAKER_MAXLEN) (kept ++ pcm)
        /\ len (extend_speaker_buffer pcm buf) = SPEAKER_MAXLEN).
Proof.
  split; [| split].
  - apply run_speaker_ops_bounded. vm_compute. discriminate.
  - intros buf. rewrite len_extend_speaker_buffer. lia.
  - intros buf kept Hover. split.
    + rewrite extend_speaker_buffer_lastn. fold kept.
      change (kept_before_extend buf) with kept.
      unfold lastn. rewrite len_app. reflexivity.
    + rewrite len_extend_speaker_buffer.
      change (kept_before_extend buf) with kept. lia.
Qed.

Lemma speaker_buffer_hard_cap_witness :
  let buf : list sample := (1 # 2)%Q :: repeat silence (Z.to_nat 47999) in
  let pcm : list sample := repeat (1 # 3)%Q (Z.to_nat 52001) in
  let kept := if len buf >? SAMPLE_RATE * 2 then [] else buf in
  len kept + len pcm > SPEAKER_MAXLEN
  /\ extend_speaker_buffer pcm buf
     = slice_from (len kept + len pcm - SPEAKER_MAXLEN) (kept ++ pcm)
  /\ len (extend_speaker_buffer pcm buf) = SPEAKER_MAXLEN.
Proof.
  intros buf pcm kept.
  assert (Hbuf : len buf = 48000).
  { unfold buf. rewrite len_cons. unfold len. rewrite repeat_length. lia. }
  assert (Hpcm : len pcm = 52001).
  { unfold pcm, len. rewrite repeat_length. lia. }
  assert (Hover : len kept + len pcm > SPEAKER_MAXLEN).
  { assert (Hkept : kept = buf) by (unfold kept; rewrite Hbuf; reflexivity).
    rewrite Hkept, Hbuf, Hpcm. unfold SPEAKER_MAXLEN. lia. }
  split; [exact Hover |].
  exact (proj2 (proj2 (speaker_buffer_hard_cap (codec := example_codec) [] pcm)) buf Hover).
Defined.

(** ** The command monitor *)

Lemma pystr_eqb_eq (a b : pystr) : pystr_eqb a b = true <-> a = b.
Proof.
  revert b. induction a as [| x a IH]; intros [| y b]; simpl; split; intros H;
    try reflexivity; try discriminate.
  - apply andb_true_iff in H. destruct H as [Hx Ha].
    apply N.eqb_eq in Hx. apply IH in Ha. now subst.
  - injection H as -> ->. apply andb_true_iff. split; [apply N.eqb_refl | now apply IH].
Qed.

Lemma pystr_eqb_neq (a b : pystr) : a <> b -> pystr_eqb a b = false.
Proof.
  intros H. destruct (pystr_eqb a b) eqn:E; [| reflexivity].
  apply pystr_eqb_eq in E. contradiction.
Qed.

Lemma lstrip_spaces (pre s : pystr) :
  forallb py_isspace pre = true -> lstrip (pre ++ s) = lstrip s.
Proof.
  induction pre as [| c pre IH]; intros H; [reflexivity |].
  simpl in H. apply andb_true_iff in H. destruct H as [Hc Hpre].
  simpl. rewrite Hc. apply IH. exact Hpre.
Qed.

Lemma lstrip_no_space (s : pystr) :
  match s with
  | c :: _ => py_isspace c = false
  | [] => True
  end ->
  lstrip s = s.
Proof. destruct s as [| c s]; intros H; [reflexivity | simpl; now rewrite H]. Qed.

Lemma strip_padded (pre core post : pystr) :
  forallb py_isspace pre = true ->
  forallb py_isspace post = true ->
  no_space_around core ->
  strip (pre ++ core ++ post) = core.
Proof.
  intros Hpre Hpost [Hhead Hlast]. unfold strip, rstrip.
  rewrite lstrip_spaces by exact Hpre.
  assert (Hrev : forallb py_isspace (rev post) = true).
  { rewrite forallb_forall in *. intros c Hin. apply Hpost. apply in_rev. exact Hin. }
  destruct core as [| c core].
  - simpl app. rewrite <- (app_nil_r post) at 1.
    rewrite lstrip_spaces by exact Hpost. simpl. reflexivity.
  - rewrite (lstrip_no_space ((c :: core) ++ post)) by exact Hhead.
    rewrite rev_app_distr, lstrip_spaces by exact Hrev.
    rewrite lstrip_no_space by exact Hlast.
    apply rev_involutive.
Qed.

Section Monitor.
Context {ucd : UnicodeData}.

Lemma lower_ascii (s : pystr) : forallb is_ascii s = true -> lower s = map ascii_lower s.
Proof. intros H. unfold lower. rewrite H. reflexivity. Qed.

Lemma run_command_restart (s : client) :
ws_open s = true ->
run_command (str "restart") s
= (inr (Some true),
   set_ws_sent (ws_sent s ++ [Bytes [x03; x03]])
     (set_restart_requested true (set_stdout (stdout s ++ [OutRestartRequested]) s))).
Proof.
intros Hopen. unfold run_command. simpl pystr_eqb. cbv iota.
unfold bind, print, modify, ws_send, gets, ret. cbn. rewrite Hopen. reflexivity.
Qed.

Lemma run_command_quit (s : client) :
run_command (str "quit") s
= (inr (Some false),
   set_restart_requested true (set_stdout (stdout s ++ [OutQuitRequested]) s)).
Proof. reflexivity. Qed.

Lemma run_command_unknown (command : pystr) (s : client) :
command <> [] -> command <> str "restart" -> command <> str "quit" ->
run_command command s
= (inr None, set_stdout (stdout s ++ [OutUnknownCommand command]) s).
Proof.
intros Hne Hr Hq. unfold run_command.
rewrite (pystr_eqb_neq _ _ Hr), (pystr_eqb_neq _ _ Hq).
destruct command; [contradiction | reflexivity].
Qed.

Lemma monitor_step_decoded (line : list byte) (text : pystr) (s : client) :
decode line = Some text ->
monitor_step (Line line) s
= try_except (run_command (lower (strip text)))
    (fun e => print (OutInputError e) ;; ret (Some true)) s.
Proof.
intros H. unfold monitor_step, try_except, bind at 1, parse_command.
rewrite H. reflexivity.
Qed.

End Monitor.

(** C9.  The monitor decodes the line, strips the white space around
    it and lowers its case before it matches: a line made of white
    space, an ASCII word and white space is handled as the word in
    lower case.  With the connection open, the line "Restart" and a
    newline sets [restart_requested], sends the control message 0x03
    0x03 and returns [True]; the line "  quit  " sets
    [restart_requested] and returns [False]; the line "foo", and any
    line whose command is neither empty nor one of the two, prints the
    unknown-command notice and changes nothing else. *)
Theorem command_monitor_parses_commands {ucd : UnicodeData} (s : client) :
  (forall line pre core post,
     decode line = Some (pre ++ core ++ post) ->
     forallb py_isspace pre = true ->
     forallb py_isspace post = true ->
     no_space_around core ->
     forallb is_ascii core = true ->
     monitor_step (Line line) s
     = try_except (run_command (map ascii_lower core))
         (fun e => print (OutInputError e) ;; ret (Some true)) s)
  /\ (ws_open s = true ->
      monitor_step (Line (bytes_of "Restart" ++ [x0a])) s
      = (inr (Some true),
         set_ws_sent (ws_sent s ++ [Bytes [x03; x03]])
           (set_restart_requested true (set_stdout (stdout s ++ [OutRestartRequested]) s))))
  /\ monitor_step (Line (bytes_of "  quit  ")) s
     = (inr (Some false),
        set_restart_requested true (set_stdout (stdout s ++ [OutQuitRequested]) s))
  /\ monitor_step (Line (bytes_of "foo")) s
     = (inr None, set_stdout (stdout s ++ [OutUnknownCommand (str "foo")]) s)
  /\ (forall line text,
        decode line = Some text ->
        lower (strip text) <> [] ->
        lower (strip text) <> str "restart" ->
        lower (strip text) <> str "quit" ->
        monitor_step (Line line) s
        = (inr None,
           set_stdout (stdout s ++ [OutUnknownCommand (lower (strip text))]) s)).
Proof.
  split; [| split; [| split; [| split]]].
  - intros line pre core post Hdec Hpre Hpost Hcore Hascii.
    rewrite (monitor_step_decoded line _ s Hdec).
    rewrite strip_padded by assumption.
    rewrite lower_ascii by assumption. reflexivity.
  - intros Hopen.
    rewrite (monitor_step_decoded _ (str "Restart" ++ [10%N]) s) by reflexivity.
    change (lower (strip (str "Restart" ++ [10%N]))) with (str "restart").
    unfold try_except. rewrite run_command_restart by exact Hopen. reflexivity.
  - rewrite (monitor_step_decoded _ (str "  quit  ") s) by reflexivity.
    change (lower (strip (str "  quit  "))) with (str "quit").
    unfold try_except. rewrite run_command_quit. reflexivity.
  - rewrite (monitor_step_decoded _ (str "foo") s) by reflexivity.
    change (lower (strip (str "foo"))) with (str "foo").
    unfold try_except. rewrite run_command_unknown; [reflexivity | | |]; discriminate.
  - intros line text Hdec Hne Hr Hq.
    rewrite (monitor_step_decoded line text s Hdec).
    unfold try_except. rewrite run_command_unknown by assumption. reflexivity.
Qed.

Lemma command_monitor_parses_commands_witness :
  let line := [x09] ++ bytes_of "QuIt" ++ [x20; x0a] in
  let pre := [9%N] in
  let core := str "QuIt" in
  let post := [32%N; 10%N] in
  (decode line = Some (pre ++ core ++ post)
   /\ forallb py_isspace pre = true
   /\ forallb py_isspace post = true
   /\ no_space_around core
   /\ forallb is_ascii core = true
   /\ ws_open module_loaded = true)
  /\ monitor_step (ucd := example_ucd) (Line line) module_loaded
     = (inr (Some false),
        set_restart_requested true
          (set_stdout (stdout module_loaded ++ [OutQuitRequested]) module_loaded))
  /\ monitor_step (ucd := example_ucd) (Line (bytes_of "Restart" ++ [x0a])) module_loaded
     = (inr (Some true),
        set_ws_sent (ws_sent module_loaded ++ [Bytes [x03; x03]])
          (set_restart_requested true
             (set_stdout (stdout module_loaded ++ [OutRestartRequested]) module_loaded))).
Proof.
  intros line pre core post.
  assert (Hdec : decode line = Some (pre ++ core ++ post)) by reflexivity.
  assert (Hpre : forallb py_isspace pre = true) by reflexivity.
  assert (Hpost : forallb py_isspace post = true) by reflexivity.
  assert (Hcore : no_space_around core) by (split; reflexivity).
  assert (Hascii : forallb is_ascii core = true) by reflexivity.
  assert (Hopen : ws_open module_loaded = true) by reflexivity.
  split; [repeat split; assumption |].
  destruct (command_monitor_parses_commands (ucd := example_ucd) module_loaded)
    as (Hnorm & Hrestart & _).
  split.
  - rewrite (Hnorm line pre core post Hdec Hpre Hpost Hcore Hascii). reflexivity.
  - exact (Hrestart Hopen).
Defined.

(** * Further properties of the code *)

(** ** The capture callback *)

(** X1.  After any run of the capture callback from a queue within its
    capacity, the queue holds exactly the last [MAX_QUEUE_SIZE] chunks
    of what it held followed by what was pushed, in the order of
    arrival: chunks are neither reordered nor duplicated, and only the
    oldest ones are lost. *)
Theorem capture_queue_holds_newest_chunks
    (calls : list (ndarray * CallbackFlags)) (st : client) :
  len (mic_queue st) <= MAX_QUEUE_SIZE ->
  mic_queue (capture_run calls st)
  = lastn MAX_QUEUE_SIZE (mic_queue st ++ map (fun c => mono_of (fst c)) calls).
Proof. apply capture_run_lastn. Qed.

Lemma capture_queue_holds_newest_chunks_witness :
  len (mic_queue module_loaded) <= MAX_QUEUE_SIZE
  /\ mic_queue (capture_run scenario_pushes module_loaded)
     = lastn MAX_QUEUE_SIZE
         (mic_queue module_loaded ++ map (fun c => mono_of (fst c)) scenario_pushes).
Proof.
  split; [vm_compute; discriminate |].
  apply (capture_queue_holds_newest_chunks scenario_pushes module_loaded).
  vm_compute; discriminate.
Defined.

Lemma concat_single_rows (l : list (list sample)) :
  Forall (fun row => len row = 1) l ->
  concat l = map (fun r => nth 0 r silence) l.
Proof.
  induction 1 as [| row l Hrow _ IH]; [reflexivity |].
  simpl. rewrite IH.
  destruct row as [| x [| y row]]; [discriminate Hrow | reflexivity |].
  rewrite !len_cons in Hrow. pose proof (len_nonneg row). lia.
Qed.

(** X2.  On a well-formed input block the chunk that the capture
    callback queues is the first channel of each row, whatever the
    number of channels, so it has one sample for each frame. *)
Theorem mono_chunk_is_first_channel (indata : ndarray) :
  well_formed indata ->
  mono_of indata = map (fun row => nth 0 row silence) (rows indata)
  /\ len (mono_of indata) = len (rows indata).
Proof.
  intros [Hch Hrows].
  assert (H : mono_of indata = map (fun row => nth 0 row silence) (rows indata)).
  { unfold mono_of. destruct (Z.ltb_spec 1 (shape1 indata)) as [Hmany | Hone].
    - reflexivity.
    - unfold flatten. apply concat_single_rows.
      replace 1 with (shape1 indata) by lia. exact Hrows. }
  split; [exact H |]. rewrite H. unfold len. rewrite length_map. reflexivity.
Qed.

Lemma mono_chunk_is_first_channel_witness :
  let stereo := {| shape1 := 2; rows := [[1%Q; 2%Q]; [3%Q; 4%Q]; [5%Q; 6%Q]] |} in
  well_formed stereo
  /\ mono_of stereo = [1%Q; 3%Q; 5%Q]
  /\ len (mono_of stereo) = 3.
Proof.
  intros stereo.
  assert (H : well_formed stereo).
  { split; [vm_compute; discriminate |]. repeat constructor. }
  split; [exact H |].
  exact (mono_chunk_is_first_channel stereo H).
Defined.

(** ** The playback callback and the playback buffer *)

Lemma firstn_plus {A : Type} (a b : nat) (l : list A) :
  firstn (a + b) l = firstn a l ++ firstn b (skipn a l).
Proof.
  revert l. induction a as [| a IH]; intros l; [reflexivity |].
  destruct l as [| x l]; simpl.
  - destruct b; reflexivity.
  - now rewrite IH.
Qed.

(** X3.  Two playback callbacks in a row, on a buffer that holds
    enough for both, emit the buffered samples once and in order: the
    two blocks together are the front of the buffer, the rest stays,
    and [queue_size] is the depth that is left. *)
Theorem playback_callbacks_emit_in_order
    (n1 n2 : Z) (status1 status2 : CallbackFlags) (st : client) :
  0 <= n1 -> 0 <= n2 -> n1 + n2 <= len (speaker_buffer st) ->
  let r1 := audio_callback_out n1 status1 st in
  let r2 := audio_callback_out n2 status2 (snd r1) in
  fst r1 ++ fst r2 = slice_to (n1 + n2) (speaker_buffer st)
  /\ speaker_buffer (snd r2) = slice_from (n1 + n2) (speaker_buffer st)
  /\ queue_size (stats (snd r2)) = len (speaker_buffer st) - (n1 + n2).
Proof.
  intros H1 H2 Hlen r1 r2.
  assert (E1 : fst r1 = slice_to n1 (speaker_buffer st)
               /\ speaker_buffer (snd r1) = slice_from n1 (speaker_buffer st)).
  { unfold r1. rewrite audio_callback_out_eq by assumption. cbv zeta.
    replace (n1 <=? len (speaker_buffer st)) with true by (symmetry; apply Z.leb_le; lia).
    split; reflexivity. }
  destruct E1 as [Eo1 Eb1].
  assert (Hrest : len (speaker_buffer (snd r1)) = len (speaker_buffer st) - n1)
    by (rewrite Eb1; apply len_slice_from; lia).
  assert (E2 : fst r2 = slice_to n2 (speaker_buffer (snd r1))
               /\ speaker_buffer (snd r2) = slice_from n2 (speaker_buffer (snd r1))
               /\ queue_size (stats (snd r2))
                  = len (slice_from n2 (speaker_buffer (snd r1)))).
  { unfold r2. rewrite audio_callback_out_eq by assumption. cbv zeta.
    replace (n2 <=? len (speaker_buffer (snd r1))) with true
      by (symmetry; apply Z.leb_le; lia).
    repeat split; reflexivity. }
  destruct E2 as (Eo2 & Eb2 & Eq2).
  split; [| split].
  - rewrite Eo1, Eo2, Eb1. unfold slice_to, slice_from.
    rewrite Z2Nat.inj_add by assumption. symmetry. apply firstn_plus.
  - rewrite Eb2, Eb1. unfold slice_from. rewrite skipn_skipn.
    f_equal. lia.
  - rewrite Eq2, len_slice_from by lia. lia.
Qed.

Lemma playback_callbacks_emit_in_order_witness :
  let st := set_speaker_buffer [1%Q; 2%Q; 3%Q; 4%Q; 5%Q; 6%Q] module_loaded in
  (0 <= 2 /\ 0 <= 3 /\ 2 + 3 <= len (speaker_buffer st))
  /\ let r1 := audio_callback_out 2 no_flags st in
     let r2 := audio_callback_out 3 no_flags (snd r1) in
     fst r1 ++ fst r2 = [1%Q; 2%Q; 3%Q; 4%Q; 5%Q]
     /\ speaker_buffer (snd r2) = [6%Q]
     /\ queue_size (stats (snd r2)) = 1.
Proof.
  intros st.
  assert (H1 : 0 <= 2) by lia.
  assert (H2 : 0 <= 3) by lia.
  assert (H3 : 2 + 3 <= len (speaker_buffer st)) by (vm_compute; discriminate).
  split; [repeat split; assumption |].
  exact (playback_callbacks_emit_in_order 2 3 no_flags no_flags st H1 H2 H3).
Defined.

(** X4.  Whatever the number of frames asked and the status, the
    playback callback leaves [queue_size] equal to the depth of the
    buffer, never adds a sample to the buffer, and touches neither the
    capture queue, nor the capture counter, nor the restart flag. *)
Theorem playback_callback_footprint (frames : Z) (status : CallbackFlags) (st : client) :
  let st' := snd (audio_callback_out frames status st) in
  queue_size (stats st') = len (speaker_buffer st')
  /\ len (speaker_buffer st') <= len (speaker_buffer st)
  /\ mic_queue st' = mic_queue st
  /\ mic_overflows (stats st') = mic_overflows (stats st)
  /\ restart_requested st' = restart_requested st.
Proof.
  intros st'. split; [| split; [apply audio_callback_out_depth |]].
  - unfold st', audio_callback_out.
    destruct (len (speaker_buffer _) >=? frames).
    + destruct (PyDeque.popleft_n _ _) as [out rest]. reflexivity.
    + destruct (PyDeque.popleft_n _ _) as [out rest]. reflexivity.
  - unfold st', audio_callback_out. rewrite status_output_underflow.
    set (s1 := if output_underflow status then bump_speaker_underruns st else st).
    assert (H1 : mic_queue s1 = mic_queue st
                 /\ mic_overflows (stats s1) = mic_overflows (stats st)
                 /\ restart_requested s1 = restart_requested st)
      by (unfold s1; destruct (output_underflow status); repeat split; reflexivity).
    destruct H1 as (Hq & Ho & Hr).
    destruct (len (speaker_buffer s1) >=? frames).
    + destruct (PyDeque.popleft_n _ _) as [out rest]. cbn. repeat split; assumption.
    + destruct (PyDeque.popleft_n _ _) as [out rest].
      destruct (len (speaker_buffer s1) <? frames / 2); cbn; repeat split; assumption.
Qed.

Lemma lastn_lastn {A : Type} (n m : Z) (l : list A) :
  0 <= n <= m -> lastn n (lastn m l) = lastn n l.
Proof.
  intros H. unfold lastn at 1. rewrite len_lastn by lia.
  unfold lastn, slice_from. rewrite skipn_skipn. f_equal.
  pose proof (len_nonneg l). lia.
Qed.

Lemma lastn_app_exact {A : Type} (l r : list A) : lastn (len r) (l ++ r) = r.
Proof.
  unfold lastn, slice_from. rewrite len_app.
  replace (Z.to_nat (len l + len r - len r)) with (length l) by (unfold len; lia).
  rewrite skipn_app, skipn_all, Nat.sub_diag. reflexivity.
Qed.

(** X5.  The receiver's extend never drops what is new before what is
    old: the buffer it leaves is a tail of what it kept followed by
    the new samples, and a batch of at most 100000 samples is in the
    buffer entire, at its end. *)
Theorem speaker_extend_keeps_newest (pcm buf : list sample) :
  (exists dropped,
     (if len buf >? SAMPLE_RATE * 2 then [] else buf) ++ pcm
     = dropped ++ extend_speaker_buffer pcm buf)
  /\ (len pcm <= SPEAKER_MAXLEN ->
      lastn (len pcm) (extend_speaker_buffer pcm buf) = pcm).
Proof.
  rewrite extend_speaker_buffer_lastn. fold (kept_before_extend buf). split.
  - exists (slice_to (len (kept_before_extend buf ++ pcm) - SPEAKER_MAXLEN)
              (kept_before_extend buf ++ pcm)).
    unfold lastn. symmetry. apply slice_to_from.
  - intros H. rewrite lastn_lastn by (pose proof (len_nonneg pcm); lia).
    apply lastn_app_exact.
Qed.

Lemma speaker_extend_keeps_newest_witness :
  let buf : list sample := repeat (1 # 4)%Q (Z.to_nat 99999) in
  let pcm : list sample := [(1 # 2)%Q; (1 # 3)%Q] in
  len pcm <= SPEAKER_MAXLEN
  /\ lastn (len pcm) (extend_speaker_buffer pcm buf) = pcm.
Proof.
  intros buf pcm.
  assert (H : len pcm <= SPEAKER_MAXLEN) by (vm_compute; discriminate).
  split; [exact H |].
  exact (proj2 (speaker_extend_keeps_newest pcm buf) H).
Defined.

(** ** From the capture queue to the encoder *)

Lemma audio_callback_in_footprint (indata : ndarray) (frames : Z) (status : CallbackFlags)
    (st : client) :
  let st' := audio_callback_in indata frames status st in
  ws_open st' = ws_open st
  /\ accumulated st' = accumulated st
  /\ opus_writer st' = opus_writer st
  /\ restart_requested st' = restart_requested st
  /\ speaker_buffer st' = speaker_buffer st.
Proof.
  unfold audio_callback_in.
  set (st1 := if flags_set status then _ else st).
  assert (H1 : ws_open st1 = ws_open st
               /\ accumulated st1 = accumulated st
               /\ opus_writer st1 = opus_writer st
               /\ restart_requested st1 = restart_requested st
               /\ speaker_buffer st1 = speaker_buffer st).
  { unfold st1. destruct (flags_set status), (input_overflow status);
      repeat split; reflexivity. }
  destruct (PyQueue.put_nowait _ _ _) as [e | q]; [| exact H1].
  destruct (PyQueue.get_nowait _) as [e' | [x q1]]; [exact H1 |].
  destruct (PyQueue.put_nowait _ _ q1); exact H1.
Qed.

Lemma capture_run_footprint (calls : list (ndarray * CallbackFlags)) (st : client) :
  let st' := capture_run calls st in
  ws_open st' = ws_open st
  /\ accumulated st' = accumulated st
  /\ opus_writer st' = opus_writer st
  /\ restart_requested st' = restart_requested st
  /\ speaker_buffer st' = speaker_buffer st.
Proof.
  revert st. induction calls as [| c calls IH]; intros st; [repeat split |].
  cbv zeta.
  change (capture_run (c :: calls) st)
    with (capture_run calls (audio_callback_in (fst c) (len (rows (fst c))) (snd c) st)).
  destruct (IH (audio_callback_in (fst c) (len (rows (fst c))) (snd c) st))
    as (H1 & H2 & H3 & H4 & H5).
  destruct (audio_callback_in_footprint (fst c) (len (rows (fst c))) (snd c) st)
    as (G1 & G2 & G3 & G4 & G5).
  rewrite H1, H2, H3, H4, H5. repeat split; assumption.
Qed.

(** X6.  What the capture callback has queued since the last poll
    reaches the encoder at the next poll: on an open connection, a
    poll after any run of the callback on an empty queue hands over,
    as full frames followed by the residual, what was accumulated
    followed by the last 10 chunks pushed, and empties the queue; with
    at most 10 pushes between two polls no sample is lost. *)
Theorem captured_chunks_reach_encoder {codec : Codec}
    (calls : list (ndarray * CallbackFlags)) (s : client) :
  ws_open s = true ->
  mic_queue s = [] ->
  exists s' frames,
    send_poll (capture_run calls s) = (inr tt, s')
    /\ opus_writer s' = opus_writer s ++ frames
    /\ Forall (fun frame => len frame = FRAME_SIZE) frames
    /\ concat frames ++ accumulated s'
       = accumulated s
         ++ concat (lastn MAX_QUEUE_SIZE (map (fun c => mono_of (fst c)) calls))
    /\ (len calls <= MAX_QUEUE_SIZE ->
        concat frames ++ accumulated s'
        = accumulated s ++ concat (map (fun c => mono_of (fst c)) calls))
    /\ len (accumulated s') < FRAME_SIZE
    /\ mic_queue s' = [].
Proof.
  intros Hopen Hq.
  destruct (capture_run_footprint calls s) as (F1 & F2 & F3 & _ & _).
  destruct (send_poll_spec (capture_run calls s)) as (s' & frames & Hp & Hw & Hf & Hc & Hr & _ & _ & Hq').
  { rewrite F1. exact Hopen. }
  assert (Hqueue : mic_queue (capture_run calls s)
                   = lastn MAX_QUEUE_SIZE (map (fun c => mono_of (fst c)) calls)).
  { rewrite capture_run_lastn by (rewrite Hq; vm_compute; discriminate).
    rewrite Hq. reflexivity. }
  assert (Hcat : concat frames ++ accumulated s'
                 = accumulated s
                   ++ concat (lastn MAX_QUEUE_SIZE (map (fun c => mono_of (fst c)) calls))).
  { rewrite Hc, F2, Hqueue. reflexivity. }
  exists s', frames.
  split; [exact Hp |]. split; [rewrite Hw, F3; reflexivity |].
  split; [exact Hf |]. split; [exact Hcat |].
  split; [| split; assumption].
  intros Hfew. rewrite Hcat, lastn_all; [reflexivity |].
  unfold len in *. rewrite length_map. exact Hfew.
Qed.

Lemma captured_chunks_reach_encoder_witness :
  let calls := firstn 7 scenario_pushes in
  (ws_open module_loaded = true /\ mic_queue module_loaded = [])
  /\ exists s' frames,
       send_poll (codec := example_codec) (capture_run calls module_loaded) = (inr tt, s')
       /\ opus_writer s' = opus_writer module_loaded ++ frames
       /\ Forall (fun frame => len frame = FRAME_SIZE) frames
       /\ concat frames ++ accumulated s'
          = accumulated module_loaded
            ++ concat (lastn MAX_QUEUE_SIZE (map (fun c => mono_of (fst c)) calls))
       /\ (len calls <= MAX_QUEUE_SIZE ->
           concat frames ++ accumulated s'
           = accumulated module_loaded ++ concat (map (fun c => mono_of (fst c)) calls))
       /\ len (accumulated s') < FRAME_SIZE
       /\ mic_queue s' = [].
Proof.
  intros calls. split; [split; reflexivity |].
  exact (captured_chunks_reach_encoder (codec := example_codec) calls module_loaded
           eq_refl eq_refl).
Defined.

(** ** What the sender sends *)

Section SenderTraffic.
Context {codec : Codec}.

Lemma send_frames_S (fuel : nat) (s : client) :
  send_frames (S fuel) s
  = if len (accumulated s) >=? FRAME_SIZE then
      let s1 := set_opus_writer (opus_writer s ++ [slice_to FRAME_SIZE (accumulated s)])
                  (set_accumulated (slice_from FRAME_SIZE (accumulated s)) s) in
      if len (read_bytes (opus_writer s1)) >? 0 then
        if ws_open s then send_frames fuel (after_frame s)
        else (inl ConnectionClosed, s1)
      else send_frames fuel (after_frame s)
    else (inr tt, s).
Proof.
  unfold send_frames at 1; fold send_frames.
  unfold bind at 1. unfold gets at 1.
  destruct (len (accumulated s) >=? FRAME_SIZE); [| reflexivity].
  unfold after_frame. cbv zeta.
  unfold bind, modify, gets, ws_send, ret, raise. cbn -[send_frames Z.gtb len].
  destruct (len (read_bytes _) >? 0); cbn -[send_frames Z.gtb len]; [| reflexivity].
  destruct (ws_open s); reflexivity.
Qed.

Lemma send_frames_O (s : client) : send_frames 0 s = (inr tt, s).
Proof.
  unfold send_frames, bind, gets.
  destruct (len (accumulated s) >=? FRAME_SIZE); reflexivity.
Qed.

Lemma after_frame_footprint (s : client) :
  ws_open (after_frame s) = ws_open s
  /\ restart_requested (after_frame s) = restart_requested s
  /\ speaker_buffer (after_frame s) = speaker_buffer s
  /\ mic_queue (after_frame s) = mic_queue s.
Proof. unfold after_frame. cbv zeta. destruct (len _ >? 0); repeat split. Qed.

Lemma after_frame_sent (s : client) :
  exists msgs,
    ws_sent (after_frame s) = ws_sent s ++ msgs
    /\ Forall audio_message msgs
    /\ frame_count (after_frame s) = frame_count s + len msgs.
Proof.
  unfold after_frame. cbv zeta.
  set (data := read_bytes _).
  destruct (Z.gtb_spec (len data) 0) as [Hdata | Hnone].
  - exists [Bytes (x01 :: data)]. split; [reflexivity | split; [| reflexivity]].
    constructor; [| constructor]. exists data. split; [reflexivity | lia].
  - exists []. cbn. rewrite app_nil_r. split; [reflexivity | split; [constructor | lia]].
Qed.

(** What the frame loop does not touch, whether the connection is
    open or not. *)
Lemma send_frames_footprint (fuel : nat) (s : client) :
  let s' := snd (send_frames fuel s) in
  ws_open s' = ws_open s
  /\ restart_requested s' = restart_requested s
  /\ speaker_buffer s' = speaker_buffer s
  /\ mic_queue s' = mic_queue s
  /\ (ws_open s = false -> ws_sent s' = ws_sent s).
Proof.
  revert s. induction fuel as [| fuel IH]; intros s; cbv zeta.
  - rewrite send_frames_O. repeat split.
  - rewrite send_frames_S.
    destruct (len (accumulated s) >=? FRAME_SIZE); [| repeat split].
    cbv zeta.
    destruct (after_frame_footprint s) as (A1 & A2 & A3 & A4).
    destruct (IH (after_frame s)) as (H1 & H2 & H3 & H4 & H5).
    destruct (len (read_bytes _) >? 0) eqn:Hdata.
    + destruct (ws_open s) eqn:Hopen.
      * rewrite H1, H2, H3, H4, A1, A2, A3, A4. repeat split. intros H; discriminate H.
      * cbn. repeat split. exact Hopen.
    + rewrite H1, H2, H3, H4, A1, A2, A3, A4. repeat split.
      intros Hclosed. rewrite H5 by (rewrite A1; exact Hclosed).
      unfold after_frame. cbv zeta. rewrite Hdata. reflexivity.
Qed.

Lemma send_frames_sent (fuel : nat) (s : client) :
  ws_open s = true ->
  exists msgs,
    ws_sent (snd (send_frames fuel s)) = ws_sent s ++ msgs
    /\ Forall audio_message msgs
    /\ frame_count (snd (send_frames fuel s)) = frame_count s + len msgs.
Proof.
  revert s. induction fuel as [| fuel IH]; intros s Hopen.
  - rewrite send_frames_O. exists []. cbn. rewrite app_nil_r.
    split; [reflexivity | split; [constructor | lia]].
  - destruct (Z_lt_le_dec (len (accumulated s)) FRAME_SIZE) as [Hlt | Hge].
    + rewrite send_frames_done by exact Hlt. exists []. cbn. rewrite app_nil_r.
      split; [reflexivity | split; [constructor | lia]].
    + rewrite send_frames_turn by assumption.
      destruct (after_frame_sent s) as (m1 & S1 & F1 & C1).
      destruct (IH (after_frame s)) as (m2 & S2 & F2 & C2).
      { destruct (after_frame_footprint s) as (A1 & _). rewrite A1. exact Hopen. }
      exists (m1 ++ m2). rewrite S2, S1, C2, C1, len_app, <- app_assoc.
      split; [reflexivity | split; [apply Forall_app; split; assumption | lia]].
Qed.

Lemma send_audio_loop_turn (arrived : list (list sample)) (polls : list (list (list sample)))
    (s : client) :
  restart_requested s = false ->
  send_audio_loop (arrived :: polls) s
  = match send_poll (set_mic_queue (mic_queue s ++ arrived) s) with
    | (inr _, s2) => send_audio_loop polls s2
    | (inl e, s2) => (inr tt, set_stdout (stdout s2 ++ [OutSendError e]) s2)
    end.
Proof.
  intros Hrr. unfold send_audio_loop at 1; fold send_audio_loop.
  unfold bind at 1. unfold gets at 1. rewrite Hrr.
  unfold bind at 1. unfold modify at 1.
  unfold bind at 1. unfold try_except, bind at 1.
  destruct (send_poll _) as [[e | []] s2]; reflexivity.
Qed.

Lemma send_audio_loop_stopped (polls : list (list (list sample))) (s : client) :
  restart_requested s = true -> send_audio_loop polls s = (inr tt, s).
Proof.
  intros Hrr. destruct polls; unfold send_audio_loop, bind, gets; rewrite Hrr; reflexivity.
Qed.

Lemma send_poll_footprint (s : client) :
  let s' := snd (send_poll s) in
  ws_open s' = ws_open s
  /\ restart_requested s' = restart_requested s
  /\ speaker_buffer s' = speaker_buffer s
  /\ (ws_open s = false -> ws_sent s' = ws_sent s).
Proof.
  set (s1 := set_mic_queue [] (set_accumulated (drain_into (mic_queue s) (accumulated s)) s)).
  assert (Hrun : send_poll s = send_frames (length (accumulated s1)) s1) by reflexivity.
  cbv zeta. rewrite Hrun.
  destruct (send_frames_footprint (length (accumulated s1)) s1) as (H1 & H2 & H3 & _ & H5).
  rewrite H1, H2, H3. repeat split. intros Hc. apply H5. exact Hc.
Qed.

Lemma send_audio_loop_footprint (polls : list (list (list sample))) (s : client) :
  let r := send_audio_loop polls s in
  fst r = inr tt
  /\ ws_open (snd r) = ws_open s
  /\ restart_requested (snd r) = restart_requested s
  /\ speaker_buffer (snd r) = speaker_buffer s
  /\ (ws_open s = false -> ws_sent (snd r) = ws_sent s).
Proof.
  revert s. induction polls as [| arrived polls IH]; intros s; cbv zeta.
  - unfold send_audio_loop, bind, gets.
    destruct (restart_requested s) eqn:Hrr; cbn; repeat split; exact Hrr.
  - destruct (restart_requested s) eqn:Hrr.
    + rewrite send_audio_loop_stopped by exact Hrr. cbn. repeat split. exact Hrr.
    + rewrite send_audio_loop_turn by exact Hrr.
      set (s1 := set_mic_queue (mic_queue s ++ arrived) s).
      destruct (send_poll_footprint s1) as (P1 & P2 & P3 & P4).
      destruct (send_poll s1) as [[e | u] s2]; cbn [snd] in *.
      * cbn. rewrite P1, P2, P3. repeat split; [exact Hrr | exact P4].
      * destruct (IH s2) as (H0 & H1 & H2 & H3 & H4).
        rewrite H0, H1, H2, H3, P1, P2, P3. repeat split; [exact Hrr |].
        intros Hc. rewrite H4 by (rewrite P1; exact Hc). apply P4. exact Hc.
Qed.

Lemma send_audio_loop_sent (polls : list (list (list sample))) (s : client) :
  ws_open s = true ->
  exists msgs,
    ws_sent (snd (send_audio_loop polls s)) = ws_sent s ++ msgs
    /\ Forall audio_message msgs
    /\ frame_count (snd (send_audio_loop polls s)) = frame_count s + len msgs.
Proof.
  revert s. induction polls as [| arrived polls IH]; intros s Hopen.
  - exists []. unfold send_audio_loop, bind, gets. cbn. rewrite app_nil_r.
    destruct (restart_requested s); cbn; (split; [reflexivity | split; [constructor | lia]]).
  - destruct (restart_requested s) eqn:Hrr.
    + rewrite send_audio_loop_stopped by exact Hrr. exists []. cbn. rewrite app_nil_r.
      split; [reflexivity | split; [constructor | lia]].
    + rewrite send_audio_loop_turn by exact Hrr.
      set (s1 := set_mic_queue (mic_queue s ++ arrived) s).
      destruct (send_poll_spec s1 Hopen) as (s2 & frames & Hp & _ & _ & _ & _ & Ho2 & _ & _).
      set (s0 := set_mic_queue [] (set_accumulated (drain_into (mic_queue s1) (accumulated s1)) s1)).
      assert (Hrun : send_poll s1 = send_frames (length (accumulated s0)) s0) by reflexivity.
      destruct (send_frames_sent (length (accumulated s0)) s0 Hopen) as (m1 & S1 & F1 & C1).
      rewrite <- Hrun, Hp in S1, C1. cbn [snd] in S1, C1.
      rewrite Hp.
      destruct (IH s2 Ho2) as (m2 & S2 & F2 & C2).
      exists (m1 ++ m2). rewrite S2, S1, C2, C1, len_app, <- app_assoc.
      split; [reflexivity | split; [apply Forall_app; split; assumption | cbn; lia]].
Qed.

End SenderTraffic.

(** X7.  On an open connection every message the sender sends is the
    tag 0x01 followed by a payload that is not empty, and when the
    sender stops [frame_count] is the number of messages it has sent. *)
Theorem sender_sends_only_audio_messages {codec : Codec}
    (polls : list (list (list sample))) (s : client) :
  ws_open s = true ->
  exists msgs,
    ws_sent (snd (send_audio polls s)) = ws_sent s ++ msgs
    /\ Forall audio_message msgs
    /\ frame_count (snd (send_audio polls s)) = len msgs.
Proof.
  intros Hopen.
  set (s0 := set_frame_count 0 (set_accumulated [] s)).
  assert (Hrun : send_audio polls s = send_audio_loop polls s0) by reflexivity.
  destruct (send_audio_loop_sent polls s0 Hopen) as (msgs & S & F & C).
  exists msgs. rewrite Hrun, S, C.
  split; [reflexivity | split; [exact F | cbn; lia]].
Qed.

Lemma sender_sends_only_audio_messages_witness :
  let polls : list (list (list sample)) :=
    [[repeat (1 # 2)%Q 300]; []; [repeat (1 # 3)%Q 300; repeat (1 # 4)%Q 500]] in
  ws_open module_loaded = true
  /\ exists msgs,
       ws_sent (snd (send_audio (codec := example_codec) polls module_loaded))
       = ws_sent module_loaded ++ msgs
       /\ Forall audio_message msgs
       /\ frame_count (snd (send_audio (codec := example_codec) polls module_loaded))
          = len msgs.
Proof.
  intros polls. split; [reflexivity |].
  exact (sender_sends_only_audio_messages (codec := example_codec) polls module_loaded
           eq_refl).
Defined.

(** X8.  The sender never lets an exception out: a failed send is
    reported and ends its loop.  On a closed connection it sends
    nothing at all. *)
Theorem sender_absorbs_transport_failure {codec : Codec}
    (polls : list (list (list sample))) (s : client) :
  fst (send_audio polls s) = inr tt
  /\ (ws_open s = false -> ws_sent (snd (send_audio polls s)) = ws_sent s).
Proof.
  set (s0 := set_frame_count 0 (set_accumulated [] s)).
  assert (Hrun : send_audio polls s = send_audio_loop polls s0) by reflexivity.
  rewrite Hrun.
  destruct (send_audio_loop_footprint polls s0) as (H0 & _ & _ & _ & H4).
  split; [exact H0 |]. intros Hc. apply H4. exact Hc.
Qed.

Lemma sender_absorbs_transport_failure_witness :
  let closed := Build_client [] [] (stats module_loaded) false [] Unbound false [] [] [] [] 0 [] in
  let polls : list (list (list sample)) := [[repeat (1 # 2)%Q 500]; [repeat (1 # 2)%Q 500]] in
  ws_open closed = false
  /\ send_audio (codec := example_codec) polls closed
     = (inr tt,
        set_stdout [OutSendError ConnectionClosed]
          (set_opus_writer [repeat (1 # 2)%Q 480]
             (set_accumulated (repeat (1 # 2)%Q 20) closed)))
  /\ ws_sent (snd (send_audio (codec := example_codec) polls closed)) = ws_sent closed.
Proof.
  intros closed polls. split; [reflexivity |].
  split; [vm_compute; reflexivity |].
  exact (proj2 (sender_absorbs_transport_failure (codec := example_codec) polls closed)
           eq_refl).
Defined.

(** ** More on the receiver *)

(** Case analysis along the branches of the body of the receiver's loop. *)
Ltac receive_cases s payload :=
  unfold receive_message, bind, gets;
  destruct (restart_requested s) eqn:?;
  [ | match goal with
      | |- context [match ?m with Bytes _ => _ | Str _ => _ end] =>
          destruct m as [[| ?tag payload] | ?text]
      end;
      [ | destruct (Byte.eqb _ x00);
          [ | destruct (Byte.eqb _ x01);
              [ unfold modify, read_current_speaker, bind, gets, print, ret, raise;
                cbn -[read_pcm loud len Z.gtb extend_speaker_buffer];
                destruct (len (read_pcm (opus_reader s ++ [payload])) >? 0) eqn:?;
                [ destruct (loud (read_pcm (opus_reader s ++ [payload]))) eqn:?;
                  [ change (current_speaker (set_opus_reader (opus_reader s ++ [payload]) s))
                      with (current_speaker s);
                    destruct (current_speaker s) as [| ?v] eqn:?;
                    [ | destruct (differs_from_AI _) eqn:?;
                        [ change (current_line_buffer
                                    (set_opus_reader (opus_reader s ++ [payload]) s))
                            with (current_line_buffer s);
                          destruct (truthy (current_line_buffer s)) eqn:? | ] ]
                  | ]
                | ]
              | destruct (Byte.eqb _ x02);
                [ destruct (decode payload) as [?text |] eqn:?;
                  [ destruct (truthy (strip _)) eqn:?;
                    [ unfold modify, read_current_speaker, bind, gets, print, ret, raise;
                      destruct (current_speaker s) as [| [| ?v]] eqn:?
                    | ]
                  | ]
                | ] ] ]
      | ] ].

Section ReceiverFootprint.
Context {codec : Codec}.

(** The receiver reads [restart_requested]; it writes neither the
    flag, nor the capture queue, nor the connection. *)
Lemma receive_message_footprint (m : ws_message) (s : client) :
  let s' := snd (receive_message m s) in
  restart_requested s' = restart_requested s
  /\ mic_queue s' = mic_queue s
  /\ ws_sent s' = ws_sent s
  /\ stats s' = stats s.
Proof.
  cbv zeta. receive_cases s payload; cbn; repeat split; first [reflexivity | assumption].
Qed.

(** While [current_speaker] is not bound the body of the loop leaves
    the line buffer alone and prints at most the restart notice. *)
Lemma receive_message_unbound (m : ws_message) (s : client) :
  current_speaker s = Unbound ->
  let s' := snd (receive_message m s) in
  current_line_buffer s' = current_line_buffer s
  /\ (stdout s' = stdout s \/ stdout s' = stdout s ++ [OutRestartHandshake]).
Proof.
  intros Hu. cbv zeta.
  receive_cases s payload; cbn; try congruence;
    (split; [reflexivity | first [left; reflexivity | right; reflexivity]]).
Qed.

Lemma receive_responses_footprint (events : list ws_event) (s : client) :
  let r := receive_responses events s in
  fst r = inr tt
  /\ restart_requested (snd r) = restart_requested s
  /\ mic_queue (snd r) = mic_queue s
  /\ ws_sent (snd r) = ws_sent s
  /\ stats (snd r) = stats s.
Proof.
  revert s. induction events as [| [m |] events IH]; intros s; cbv zeta.
  - repeat split.
  - rewrite receive_responses_cons.
    destruct (receive_message_footprint m s) as (F1 & F2 & F3 & F4).
    destruct (receive_message m s) as [[e | [|]] s1]; cbn [snd] in *.
    + destruct (restart_requested s1) eqn:E; cbn; repeat split; congruence.
    + destruct (IH s1) as (H0 & H1 & H2 & H3 & H4).
      rewrite H0, H1, H2, H3, H4. repeat split; assumption.
    + cbn. repeat split; assumption.
  - unfold receive_responses, try_except, bind, gets, print, modify, raise. simpl.
    destruct (restart_requested s) eqn:Hrr; cbn; repeat split; exact Hrr.
Qed.

Lemma receive_responses_unbound (events : list ws_event) (s : client) :
  current_speaker s = Unbound ->
  let s' := snd (receive_responses events s) in
  current_speaker s' = Unbound
  /\ current_line_buffer s' = current_line_buffer s
  /\ exists outs, stdout s' = stdout s ++ outs /\ Forall receiver_notice outs.
Proof.
  revert s. induction events as [| [m |] events IH]; intros s Hu; cbv zeta.
  - split; [exact Hu | split; [reflexivity |]].
    exists []. cbn. rewrite app_nil_r. split; [reflexivity | constructor].
  - rewrite receive_responses_cons.
    pose proof (current_speaker_stays_unbound m s Hu) as Hu1.
    destruct (receive_message_unbound m s Hu) as (L1 & O1).
    assert (Hout : exists o1, stdout (snd (receive_message m s)) = stdout s ++ o1
                              /\ Forall receiver_notice o1).
    { destruct O1 as [O1 | O1]; rewrite O1.
      - exists []. rewrite app_nil_r. split; [reflexivity | constructor].
      - exists [OutRestartHandshake]. split; [reflexivity |].
        constructor; [left; reflexivity | constructor]. }
    destruct Hout as (o1 & O & N1).
    destruct (receive_message m s) as [[e | [|]] s1]; cbn [snd] in *.
    + destruct (restart_requested s1); cbn.
      * split; [exact Hu1 | split; [exact L1 |]]. exists o1. split; assumption.
      * split; [exact Hu1 | split; [exact L1 |]].
        exists (o1 ++ [OutReceiveError e]). rewrite O, <- app_assoc.
        split; [reflexivity |]. apply Forall_app. split; [exact N1 |].
        constructor; [right; exists e; reflexivity | constructor].
    + destruct (IH s1 Hu1) as (H1 & H2 & o2 & H3 & N2).
      split; [exact H1 | split; [rewrite H2; exact L1 |]].
      exists (o1 ++ o2). rewrite H3, O, <- app_assoc.
      split; [reflexivity | apply Forall_app; split; assumption].
    + split; [exact Hu1 | split; [exact L1 |]]. exists o1. split; assumption.
  - unfold receive_responses, try_except, bind, gets, print, modify, raise. simpl.
    destruct (restart_requested s); cbn.
    + split; [exact Hu | split; [reflexivity |]].
      exists []. rewrite app_nil_r. split; [reflexivity | constructor].
    + split; [exact Hu | split; [reflexivity |]].
      exists [OutReceiveError ConnectionClosed]. split; [reflexivity |].
      constructor; [right; exists ConnectionClosed; reflexivity | constructor].
Qed.

End ReceiverFootprint.

(** X9.  [restart_requested] has a single writer among the
    activities: neither the sender nor the receiver ever changes it.
    Moreover the sender leaves the playback buffer alone, and the
    receiver leaves alone the capture queue, the counters and what has
    been sent on the connection. *)
Theorem sender_and_receiver_leave_restart_flag {codec : Codec}
    (polls : list (list (list sample))) (events : list ws_event) (s : client) :
  restart_requested (snd (send_audio polls s)) = restart_requested s
  /\ speaker_buffer (snd (send_audio polls s)) = speaker_buffer s
  /\ restart_requested (snd (receive_responses events s)) = restart_requested s
  /\ mic_queue (snd (receive_responses events s)) = mic_queue s
  /\ ws_sent (snd (receive_responses events s)) = ws_sent s
  /\ stats (snd (receive_responses events s)) = stats s.
Proof.
  set (s0 := set_frame_count 0 (set_accumulated [] s)).
  assert (Hrun : send_audio polls s = send_audio_loop polls s0) by reflexivity.
  rewrite Hrun.
  destruct (send_audio_loop_footprint polls s0) as (_ & _ & H2 & H3 & _).
  destruct (receive_responses_footprint events s) as (_ & R1 & R2 & R3 & R4).
  repeat split; assumption.
Qed.

(** X10.  Once [restart_requested] is set, the activities do nothing
    more: the receiver reads no further message and leaves the state
    as it is, the sender neither drains the queue nor sends, and the
    monitor returns [True] without reading a line. *)
Theorem restart_flag_stops_activities {codec : Codec} {ucd : UnicodeData}
    (polls : list (list (list sample))) (events : list ws_event)
    (lines : list stdin_event) (s : client) :
  restart_requested s = true ->
  receive_responses events s = (inr tt, s)
  /\ send_audio_loop polls s = (inr tt, s)
  /\ monitor_input lines s = (inr (Some true), s).
Proof.
  intros Hrr. split; [| split].
  - apply receive_responses_stopped. exact Hrr.
  - apply send_audio_loop_stopped. exact Hrr.
  - destruct lines; unfold monitor_input, bind, gets; rewrite Hrr; reflexivity.
Qed.

Lemma restart_flag_stops_activities_witness :
  let s := set_mic_queue [[1%Q]] (set_restart_requested true module_loaded) in
  let polls : list (list (list sample)) := [[repeat (1 # 2)%Q 500]] in
  let events := [Message (Bytes [x02; x68; x69])] in
  let lines := [Line (bytes_of "quit")] in
  restart_requested s = true
  /\ receive_responses (codec := example_codec) events s = (inr tt, s)
  /\ send_audio_loop (codec := example_codec) polls s = (inr tt, s)
  /\ monitor_input (ucd := example_ucd) lines s = (inr (Some true), s).
Proof.
  intros s polls events lines. split; [reflexivity |].
  exact (restart_flag_stops_activities (codec := example_codec) (ucd := example_ucd)
           polls events lines s eq_refl).
Defined.

(** X11.  The receiver never lets an exception out.  From a state in
    which [current_speaker] is not bound, as it is when the module has
    been loaded, it never binds the name, never puts a transcript in
    the line buffer, and prints nothing but restart notices and
    receive errors: no transcript text and no speaker prompt. *)
Theorem receiver_never_raises_nor_shows_transcript {codec : Codec}
    (events : list ws_event) (s : client) :
  fst (receive_responses events s) = inr tt
  /\ (current_speaker s = Unbound ->
      let s' := snd (receive_responses events s) in
      current_speaker s' = Unbound
      /\ current_line_buffer s' = current_line_buffer s
      /\ exists outs, stdout s' = stdout s ++ outs /\ Forall receiver_notice outs).
Proof.
  split.
  - apply receive_responses_footprint.
  - intros Hu. apply receive_responses_unbound. exact Hu.
Qed.

Lemma receiver_never_raises_nor_shows_transcript_witness :
  let events :=
    [Message (Bytes [x00]); Message (Bytes [x01; x01]);
     Message (Bytes [x02; x68; x69]); Message (Bytes [x02; x68; x6f])] in
  current_speaker module_loaded = Unbound
  /\ receive_responses (codec := example_codec) events module_loaded
     = (inr tt,
        set_stdout [OutRestartHandshake; OutReceiveError (NameError "current_speaker")]
          (set_speaker_buffer [(1 # 256)%Q]
             (set_opus_reader [[x01]] module_loaded)))
  /\ let s' := snd (receive_responses (codec := example_codec) events module_loaded) in
     current_speaker s' = Unbound
     /\ current_line_buffer s' = current_line_buffer module_loaded
     /\ exists outs,
          stdout s' = stdout module_loaded ++ outs /\ Forall receiver_notice outs.
Proof.
  intros events. split; [reflexivity | split; [vm_compute; reflexivity |]].
  exact (proj2 (receiver_never_raises_nor_shows_transcript (codec := example_codec)
                  events module_loaded) eq_refl).
Defined.

(** X12.  An audio message whose decoded samples are not louder than
    the threshold is handled without reading [current_speaker]: the
    samples, when there are some, are appended to the playback buffer
    under its clearing policy, nothing is printed, and the loop goes
    on, whether the name is bound or not. *)
Theorem quiet_audio_chunk_is_buffered {codec : Codec} (payload : list byte) (s : client) :
  restart_requested s = false ->
  loud (read_pcm (opus_reader s ++ [payload])) = false ->
  let pcm := read_pcm (opus_reader s ++ [payload]) in
  let s1 := set_opus_reader (opus_reader s ++ [payload]) s in
  receive_message (Bytes (x01 :: payload)) s
  = (inr Next,
     if len pcm >? 0
     then set_speaker_buffer (extend_speaker_buffer pcm (speaker_buffer s)) s1
     else s1).
Proof.
  intros Hrr Hquiet pcm s1.
  unfold receive_message, bind, gets. rewrite Hrr.
  cbn -[read_pcm loud len Z.gtb extend_speaker_buffer].
  fold pcm. destruct (len pcm >? 0); [| reflexivity].
  unfold pcm. rewrite Hquiet. reflexivity.
Qed.

Lemma quiet_audio_chunk_is_buffered_witness :
  let payload := [x01; x02] in
  (restart_requested module_loaded = false
   /\ loud (read_pcm (Codec := example_codec) (opus_reader module_loaded ++ [payload]))
      = false)
  /\ receive_message (codec := example_codec) (Bytes (x01 :: payload)) module_loaded
     = (inr Next,
        set_speaker_buffer [(1 # 256)%Q; (2 # 256)%Q]
          (set_opus_reader [payload] module_loaded)).
Proof.
  intros payload. split; [split; reflexivity |].
  exact (quiet_audio_chunk_is_buffered (codec := example_codec) payload module_loaded
           eq_refl eq_refl).
Defined.

(** X13.  A text message while no restart is asked.  A payload that
    is not UTF-8 raises [UnicodeDecodeError]; a text of white space
    only is ignored; any other text raises [NameError] while
    [current_speaker] is not bound; and when the name is bound the
    text is appended to the line buffer and printed, after the
    speaker prompt if the name was bound to [None], in which case it
    becomes "AI". *)
Theorem text_message_handling {codec : Codec} (payload : list byte) (s : client) :
  restart_requested s = false ->
  (decode payload = None ->
   receive_message (Bytes (x02 :: payload)) s = (inl UnicodeDecodeError, s))
  /\ (forall text,
        decode payload = Some text -> strip text = [] ->
        receive_message (Bytes (x02 :: payload)) s = (inr Next, s))
  /\ (forall text,
        decode payload = Some text -> strip text <> [] ->
        current_speaker s = Unbound ->
        receive_message (Bytes (x02 :: payload)) s
        = (inl (NameError "current_speaker"), s))
  /\ (forall text v,
        decode payload = Some text -> strip text <> [] ->
        current_speaker s = Bound v ->
        receive_message (Bytes (x02 :: payload)) s
        = (inr Next,
           let s1 :=
             match v with
             | PyNone =>
                 set_stdout (stdout s ++ [OutAISpeaker false])
                   (set_current_speaker (Bound (PyStr (str "AI"))) s)
             | PyStr _ => s
             end in
           set_stdout (stdout s1 ++ [OutText text])
             (set_current_line_buffer (current_line_buffer s1 ++ [text]) s1))).
Proof.
  intros Hrr.
  assert (Hstep : receive_message (Bytes (x02 :: payload)) s
                  = match decode payload with
                    | None => (inl UnicodeDecodeError, s)
                    | Some text =>
                        if truthy (strip text) then
                          (speaker <- read_current_speaker ;;
                           (match speaker with
                            | PyNone =>
                                modify (set_current_speaker (Bound (PyStr (str "AI")))) ;;
                                print (OutAISpeaker false)
                            | PyStr _ => ret tt
                            end) ;;
                           modify (fun s => set_current_line_buffer
                                              (current_line_buffer s ++ [text]) s) ;;
                           print (OutText text) ;;
                           ret Next) s
                        else (inr Next, s)
                    end).
  { unfold receive_message, bind at 1, gets at 1. rewrite Hrr. cbn [Byte.eqb].
    change (Byte.eqb x02 x00) with false. change (Byte.eqb x02 x01) with false.
    change (Byte.eqb x02 x02) with true. cbv iota.
    destruct (decode payload) as [text |]; [| reflexivity].
    destruct (truthy (strip text)); reflexivity. }
  rewrite Hstep. split; [| split; [| split]].
  - intros ->. reflexivity.
  - intros text -> Hblank. rewrite Hblank. reflexivity.
  - intros text -> Hsome Hu.
    destruct (strip text); [contradiction |]. cbn [truthy].
    unfold read_current_speaker, bind, gets. rewrite Hu. reflexivity.
  - intros text v -> Hsome Hb.
    destruct (strip text); [contradiction |]. cbn [truthy].
    unfold read_current_speaker, bind, gets, modify, print, ret. rewrite Hb.
    destruct v; reflexivity.
Qed.

Lemma text_message_handling_witness :
  let payload := [x68; x69] in
  (restart_requested module_loaded = false
   /\ decode payload = Some (str "hi")
   /\ strip (str "hi") <> []
   /\ current_speaker module_loaded = Unbound)
  /\ receive_message (codec := example_codec) (Bytes (x02 :: payload)) module_loaded
     = (inl (NameError "current_speaker"), module_loaded).
Proof.
  intros payload.
  assert (H : strip (str "hi") <> []) by discriminate.
  split; [repeat split; [exact H] |].
  exact (proj1 (proj2 (proj2 (text_message_handling (codec := example_codec) payload
                                module_loaded eq_refl)))
           (str "hi") eq_refl H eq_refl).
Defined.

(** ** More on the command monitor *)

Lemma lstrip_all_space (s : pystr) : forallb py_isspace s = true -> lstrip s = [].
Proof.
  intros H. rewrite <- (app_nil_r s). rewrite lstrip_spaces by exact H. reflexivity.
Qed.

Lemma strip_all_space (s : pystr) : forallb py_isspace s = true -> strip s = [].
Proof. intros H. unfold strip, rstrip. rewrite (lstrip_all_space s H). reflexivity. Qed.

Section MonitorFootprint.
Context {ucd : UnicodeData}.

(** The restart command, whether the connection is open or not. *)
Lemma monitor_step_restart (line : list byte) (text : pystr) (s : client) :
  decode line = Some text ->
  lower (strip text) = str "restart" ->
  let r := monitor_step (Line line) s in
  fst r = inr (Some true)
  /\ restart_requested (snd r) = true
  /\ (ws_open s = true ->
      ws_sent (snd r) = ws_sent s ++ [Bytes [x03; x03]]
      /\ stdout (snd r) = stdout s ++ [OutRestartRequested])
  /\ (ws_open s = false ->
      ws_sent (snd r) = ws_sent s
      /\ stdout (snd r)
         = stdout s ++ [OutRestartRequested; OutInputError ConnectionClosed]).
Proof.
  intros Hdec Hcmd. cbv zeta. rewrite (monitor_step_decoded line text s Hdec), Hcmd.
  unfold try_except, run_command. simpl pystr_eqb. cbv iota.
  unfold bind, print, modify, ws_send, gets, ret, raise. cbn.
  destruct (ws_open s); cbn.
  - repeat split; intros; first [reflexivity | assumption | congruence].
  - repeat split; intros; try first [reflexivity | congruence].
    all: rewrite <- app_assoc; reflexivity.
Qed.

Lemma monitor_step_undecodable (line : list byte) (s : client) :
  decode line = None ->
  monitor_step (Line line) s
  = (inr (Some true), set_stdout (stdout s ++ [OutInputError UnicodeDecodeError]) s).
Proof.
  intros H. unfold monitor_step, try_except, bind at 1, parse_command. rewrite H. reflexivity.
Qed.

(** What a step of the monitor returns and what it leaves alone. *)
Lemma monitor_step_footprint (event : stdin_event) (s : client) :
  let r := monitor_step event s in
  exists v,
    fst r = inr v
    /\ (v = Some false -> restart_requested (snd r) = true)
    /\ (v = None -> restart_requested (snd r) = restart_requested s)
    /\ mic_queue (snd r) = mic_queue s
    /\ speaker_buffer (snd r) = speaker_buffer s
    /\ stats (snd r) = stats s
    /\ current_line_buffer (snd r) = current_line_buffer s
    /\ current_speaker (snd r) = current_speaker s.
Proof.
  cbv zeta. destruct event as [line |].
  - destruct (decode line) as [text |] eqn:Hdec.
    + rewrite (monitor_step_decoded line text s Hdec).
      unfold try_except, run_command.
      destruct (pystr_eqb (lower (strip text)) (str "restart")).
      * unfold bind, print, modify, ws_send, gets, ret, raise. cbn.
        destruct (ws_open s); cbn; exists (Some true);
          repeat split; intros; first [reflexivity | assumption | congruence].
      * destruct (pystr_eqb (lower (strip text)) (str "quit")).
        -- exists (Some false). cbn.
           repeat split; intros; first [reflexivity | congruence].
        -- destruct (truthy (lower (strip text))); exists None; cbn; repeat split;
             intros; first [reflexivity | congruence].
    + rewrite monitor_step_undecodable by exact Hdec.
      exists (Some true). cbn. repeat split; intros; first [reflexivity | assumption | congruence].
  - exists None. cbn. repeat split; intros; first [reflexivity | congruence].
Qed.

Lemma monitor_input_cons (event : stdin_event) (events : list stdin_event) (s : client) :
  monitor_input (event :: events) s
  = if restart_requested s then (inr (Some true), s)
    else match monitor_step event s with
         | (inr (Some b), s1) => (inr (Some b), s1)
         | (inr None, s1) => monitor_input events s1
         | (inl e, s1) => (inl e, s1)
         end.
Proof.
  unfold monitor_input at 1; fold monitor_input. unfold bind, gets.
  destruct (restart_requested s); [reflexivity |].
  destruct (monitor_step event s) as [[e | [b |]] s1]; reflexivity.
Qed.

Lemma monitor_input_footprint (events : list stdin_event) (s : client) :
  let r := monitor_input events s in
  exists v,
    fst r = inr v
    /\ (v = Some false -> restart_requested (snd r) = true)
    /\ (v = None -> restart_requested (snd r) = false)
    /\ mic_queue (snd r) = mic_queue s
    /\ speaker_buffer (snd r) = speaker_buffer s
    /\ stats (snd r) = stats s
    /\ current_line_buffer (snd r) = current_line_buffer s
    /\ current_speaker (snd r) = current_speaker s.
Proof.
  revert s. induction events as [| event events IH]; intros s; cbv zeta.
  - unfold monitor_input, bind, gets. destruct (restart_requested s) eqn:Hrr; cbn.
    + exists (Some true). repeat split; intros; first [reflexivity | assumption | congruence].
    + exists None. repeat split; intros; first [reflexivity | assumption | congruence].
  - rewrite monitor_input_cons.
    destruct (restart_requested s) eqn:Hrr.
    + exists (Some true). cbn. repeat split; intros; first [reflexivity | assumption | congruence].
    + destruct (monitor_step_footprint event s) as (v & F0 & F1 & F2 & F3 & F4 & F5 & F6 & F7).
      destruct (monitor_step event s) as [[e | w] s1]; cbn [fst snd] in *;
        [discriminate F0 |].
      injection F0 as ->.
      destruct v as [b |].
      * exists (Some b). cbn. repeat split; intros; first [assumption | congruence | auto].
      * destruct (IH s1) as (v & H0 & H1 & H2 & H3 & H4 & H5 & H6 & H7).
        exists v. rewrite H3, H4, H5, H6, H7.
        repeat split; intros; first [assumption | congruence | auto].
Qed.

End MonitorFootprint.

(** X14.  The command monitor never lets an exception out and
    touches only [restart_requested], the connection and the console:
    the buffers, the counters, the line buffer and [current_speaker]
    are as before.  When it returns [False] the flag is set; as long
    as it has not returned the flag is not set. *)
Theorem monitor_result_and_footprint {ucd : UnicodeData}
    (events : list stdin_event) (s : client) :
  let r := monitor_input events s in
  exists v,
    fst r = inr v
    /\ (v = Some false -> restart_requested (snd r) = true)
    /\ (v = None -> restart_requested (snd r) = false)
    /\ mic_queue (snd r) = mic_queue s
    /\ speaker_buffer (snd r) = speaker_buffer s
    /\ stats (snd r) = stats s
    /\ current_line_buffer (snd r) = current_line_buffer s
    /\ current_speaker (snd r) = current_speaker s.
Proof. apply monitor_input_footprint. Qed.

(** X15.  A line that is not UTF-8 is reported as an input error and
    ends the monitor, which returns [True] and leaves
    [restart_requested] as it was; a line of white space only (or an
    empty one) is ignored without a notice, as a timeout is. *)
Theorem monitor_undecodable_and_blank_lines {ucd : UnicodeData}
    (line : list byte) (s : client) :
  (decode line = None ->
   monitor_step (Line line) s
   = (inr (Some true), set_stdout (stdout s ++ [OutInputError UnicodeDecodeError]) s))
  /\ (forall text,
        decode line = Some text -> forallb py_isspace text = true ->
        monitor_step (Line line) s = (inr None, s)
        /\ monitor_step (Line line) s = monitor_step Timeout s).
Proof.
  split.
  - apply monitor_step_undecodable.
  - intros text Hdec Hblank.
    rewrite (monitor_step_decoded line text s Hdec).
    rewrite strip_all_space by exact Hblank. split; reflexivity.
Qed.

Lemma monitor_undecodable_and_blank_lines_witness :
  (decode [xff; x0a] = None
   /\ decode [x20; x09; x0a] = Some [32%N; 9%N; 10%N]
   /\ forallb py_isspace [32%N; 9%N; 10%N] = true)
  /\ monitor_step (ucd := example_ucd) (Line [xff; x0a]) module_loaded
     = (inr (Some true),
        set_stdout (stdout module_loaded ++ [OutInputError UnicodeDecodeError]) module_loaded)
  /\ monitor_step (ucd := example_ucd) (Line [x20; x09; x0a]) module_loaded
     = (inr None, module_loaded).
Proof.
  split; [repeat split |]. split.
  - exact (proj1 (monitor_undecodable_and_blank_lines (ucd := example_ucd)
                    [xff; x0a] module_loaded) eq_refl).
  - exact (proj1 (proj2 (monitor_undecodable_and_blank_lines (ucd := example_ucd)
                           [x20; x09; x0a] module_loaded)
                    [32%N; 9%N; 10%N] eq_refl eq_refl)).
Defined.

(** X16.  The restart command on a closed connection: the flag is set
    before the send is tried, so the monitor still sets
    [restart_requested] and returns [True]; nothing is sent and the
    failed send is reported as an input error. *)
Theorem restart_command_on_closed_connection {ucd : UnicodeData}
    (line : list byte) (text : pystr) (s : client) :
  decode line = Some text ->
  lower (strip text) = str "restart" ->
  ws_open s = false ->
  let r := monitor_step (Line line) s in
  fst r = inr (Some true)
  /\ restart_requested (snd r) = true
  /\ ws_sent (snd r) = ws_sent s
  /\ stdout (snd r) = stdout s ++ [OutRestartRequested; OutInputError ConnectionClosed].
Proof.
  intros Hdec Hcmd Hclosed.
  destruct (monitor_step_restart line text s Hdec Hcmd) as (H0 & H1 & _ & H3).
  destruct (H3 Hclosed) as (H4 & H5).
  cbv zeta. repeat split; assumption.
Qed.

Lemma restart_command_on_closed_connection_witness :
  let closed := Build_client [] [] (stats module_loaded) false [] Unbound false [] [] [] [] 0 [] in
  let line := bytes_of "restart" ++ [x0a] in
  (decode line = Some (str "restart" ++ [10%N])
   /\ lower (ucd := example_ucd) (strip (str "restart" ++ [10%N])) = str "restart"
   /\ ws_open closed = false)
  /\ let r := monitor_step (ucd := example_ucd) (Line line) closed in
     fst r = inr (Some true)
     /\ restart_requested (snd r) = true
     /\ ws_sent (snd r) = ws_sent closed
     /\ stdout (snd r)
        = stdout closed ++ [OutRestartRequested; OutInputError ConnectionClosed].
Proof.
  intros closed line. split; [repeat split |].
  exact (restart_command_on_closed_connection (ucd := example_ucd) line
           (str "restart" ++ [10%N]) closed eq_refl eq_refl eq_refl).
Defined.

(** ** The session loop *)

Lemma discard_all_nil {A : Type} (q : list A) : discard_all q = [].
Proof. induction q; [reflexivity | assumption]. Qed.

(** X17.  The head of the session loop, whatever the first message
    and whether or not the config can be sent: the restart flag is
    cleared, both buffers and the line buffer are emptied and the
    codecs are new; the counters in [stats] and [current_speaker] are
    not reset.  On an open connection exactly one message, the config,
    is sent; on a closed one nothing is sent and [ConnectionClosed]
    is raised. *)
Theorem open_session_resets_session_state (first : recv_result) (s : client) :
  let r := open_session first s in
  restart_requested (snd r) = false
  /\ mic_queue (snd r) = []
  /\ speaker_buffer (snd r) = []
  /\ current_line_buffer (snd r) = []
  /\ opus_writer (snd r) = []
  /\ opus_reader (snd r) = []
  /\ stats (snd r) = stats s
  /\ current_speaker (snd r) = current_speaker s
  /\ (ws_open s = true -> ws_sent (snd r) = ws_sent s ++ [Str config_json])
  /\ (ws_open s = false -> fst r = inl ConnectionClosed /\ ws_sent (snd r) = ws_sent s).
Proof.
  cbv zeta.
  unfold open_session, bind, modify, print, ws_send, gets, ret, raise.
  cbn -[config_json]. rewrite discard_all_nil.
  destruct (ws_open s) eqn:Hopen.
  - destruct first as [[[| b data] | text] | e]; try destruct (Byte.eqb b x00);
      cbn -[config_json]; repeat split; intros; first [reflexivity | congruence].
  - cbn -[config_json]. repeat split; intros; first [reflexivity | congruence].
Qed.

Lemma open_session_resets_session_state_witness :
  let s :=
    set_speaker_buffer [1%Q; 2%Q]
      (set_mic_queue [[3%Q]]
         (set_restart_requested true (bump_speaker_underruns module_loaded))) in
  ws_open s = true
  /\ let r := open_session (Received (Bytes [x00])) s in
     fst r = inr Next
     /\ restart_requested (snd r) = false
     /\ mic_queue (snd r) = []
     /\ speaker_buffer (snd r) = []
     /\ speaker_underruns (stats (snd r)) = 1
     /\ ws_sent (snd r) = ws_sent s ++ [Str config_json].
Proof.
  intros s.
  destruct (open_session_resets_session_state (Received (Bytes [x00])) s)
    as (H1 & H2 & H3 & _ & _ & _ & H7 & _ & H9 & _).
  split; [reflexivity |].
  split; [reflexivity |].
  split; [exact H1 |]. split; [exact H2 |]. split; [exact H3 |].
  split; [rewrite H7; reflexivity | exact (H9 eq_refl)].
Defined.

Lemma session_tail_true (session_num : Z) (s : client) :
  session_tail true session_num s
  = (inr (if restart_requested s then (Next, session_num + 1) else (Break, session_num)), s).
Proof. unfold session_tail, bind, gets. cbn. destruct (restart_requested s); reflexivity. Qed.

(** X18.  How a line read by the monitor decides the session loop.
    The restart command makes the loop go on with the next session,
    the counter of sessions being incremented, even when the control
    message could not be sent; the quit command leaves the loop; and
    a line that is not UTF-8, read while no restart is asked, leaves
    the loop as well, although the monitor has returned [True]. *)
Theorem monitor_line_decides_session_loop {ucd : UnicodeData}
    (line : list byte) (session_num : Z) (s : client) :
  let r := monitor_step (Line line) s in
  (forall text,
     decode line = Some text -> lower (strip text) = str "restart" ->
     fst r = inr (Some true)
     /\ session_tail true session_num (snd r) = (inr (Next, session_num + 1), snd r))
  /\ (forall text,
        decode line = Some text -> lower (strip text) = str "quit" ->
        fst r = inr (Some false)
        /\ session_tail false session_num (snd r) = (inr (Break, session_num), snd r))
  /\ (decode line = None -> restart_requested s = false ->
      fst r = inr (Some true)
      /\ session_tail true session_num (snd r) = (inr (Break, session_num), snd r)).
Proof.
  cbv zeta. split; [| split].
  - intros text Hdec Hcmd.
    destruct (monitor_step_restart line text s Hdec Hcmd) as (H0 & H1 & _).
    split; [exact H0 |]. rewrite session_tail_true, H1. reflexivity.
  - intros text Hdec Hcmd.
    rewrite (monitor_step_decoded line text s Hdec), Hcmd.
    split; reflexivity.
  - intros Hdec Hrr. rewrite monitor_step_undecodable by exact Hdec.
    split; [reflexivity |]. rewrite session_tail_true. cbn. rewrite Hrr. reflexivity.
Qed.

Lemma monitor_line_decides_session_loop_witness :
  let line := bytes_of "RESTART" ++ [x0a] in
  (decode line = Some (str "RESTART" ++ [10%N])
   /\ lower (ucd := example_ucd) (strip (str "RESTART" ++ [10%N])) = str "restart"
   /\ decode [xc0; x80] = None
   /\ restart_requested module_loaded = false)
  /\ (let r := monitor_step (ucd := example_ucd) (Line line) module_loaded in
      fst r = inr (Some true)
      /\ session_tail true 1 (snd r) = (inr (Next, 1 + 1), snd r))
  /\ (let r := monitor_step (ucd := example_ucd) (Line [xc0; x80]) module_loaded in
      fst r = inr (Some true)
      /\ session_tail true 1 (snd r) = (inr (Break, 1), snd r)).
Proof.
  intros line. split; [repeat split |]. split.
  - exact (proj1 (monitor_line_decides_session_loop (ucd := example_ucd) line 1
                    module_loaded)
             (str "RESTART" ++ [10%N]) eq_refl eq_refl).
  - exact (proj2 (proj2 (monitor_line_decides_session_loop (ucd := example_ucd)
                           [xc0; x80] 1 module_loaded))
             eq_refl eq_refl).
Defined.
